(** * Context Bridge: activity capture, phase inference and delivery

    A shallow embedding of the TypeScript sources
      - [src/ringBuffer.ts]      (module [RingBuffer])
      - [src/types.ts]           (modules [Types], [EditorState] ...
                                  [ContextBundle])
      - [src/phaseDetection.ts]  (modules [Regex], [PhaseDetection])
      - [src/eventLog.ts]        (module [EventLog])
      - [src/httpClient.ts]      (module [HttpClient])
      - [polledState.ts]         (module [PollState])
      - [contextAssembly.ts]     (module [ContextAssembly])
    and of the built-ins they call ([Math], [JSON]), followed by the
    properties proved about them.

    Conventions.  Integer-valued JavaScript numbers (timestamps, lengths,
    counters, scores, exit codes) are carried as [Z] or [nat]; the
    fractional numbers of the program, the classifier's confidence and
    the age of an event in seconds, are IEEE-754 doubles ([float]).  In
    typed records [undefined] and [null] are [None]; the module [JSON]
    tells them apart. *)

From Stdlib Require Import ZArith String Ascii List Lia Bool QArith Qround Qminmax Qabs.
From Stdlib Require Import Floats.PrimFloat Floats.FloatOps Floats.SpecFloat.
From stdpp Require Import base option list sorting gmap strings pretty.

Local Open Scope string_scope.
Local Open Scope list_scope.
Local Open Scope Z_scope.
Local Open Scope nat_scope.

(* ===================================================================== *)
(** * Part I: the embedding                                               *)
(* ===================================================================== *)

(** ** src/ringBuffer.ts *)

Module RingBuffer.

(** The values [head] ranges over: array indices, and [NaN], which
    [(head + 1) % capacity] produces when [capacity] is 0. *)
Inductive index : Set :=
| Idx (n : nat)
| NaN.

Definition index_add (i : index) (k : nat) : index :=
  match i with
  | Idx n => Idx (n + k)
  | NaN => NaN
  end.

Definition index_mod (i : index) (c : nat) : index :=
  match i, c with
  | Idx _, O => NaN
  | Idx n, S _ => Idx (n mod c)
  | NaN, _ => NaN
  end.

Section WithItem.
Context {T : Type}.

(** A JavaScript array of [T] is a [list (option T)]: [None] is a hole,
    read as [undefined]. *)

(** [a[i] = x]: in range it overwrites, out of range the array grows and
    the gap is left as holes. *)
Definition array_set (a : list (option T)) (i : nat) (x : T)
  : list (option T) :=
  if decide (i < length a) then <[i := Some x]> a
  else a ++ replicate (i - length a) None ++ [Some x].

(** [a[i]]: [undefined] out of range, at a hole, and at [NaN]. *)
Definition array_get (a : list (option T)) (i : index) : option T :=
  match i with
  | Idx n => default None (a !! n)
  | NaN => None
  end.

Record t : Type := mk {
  buffer : list (option T);
  head : index;
  count : nat;
  capacity : nat
}.

(** [new RingBuffer(capacity)] *)
Definition new (capacity : nat) : t :=
  {| buffer := replicate capacity None; head := Idx 0; count := 0;
     capacity := capacity |}.

Definition push (item : T) (rb : t) : t :=
  {| buffer :=
       match head rb with
       | Idx h => array_set (buffer rb) h item
       | NaN => buffer rb  (* buffer[NaN] = item adds no element *)
       end;
     head := index_mod (index_add (head rb) 1) (capacity rb);
     count := if decide (count rb < capacity rb) then S (count rb)
              else count rb;
     capacity := capacity rb |}.

(** [toArray()]: the loop [for (i = 0; i < count; i++)] as a map over
    [0 .. count-1]; an item read from a hole is [undefined]. *)
Definition toArray (rb : t) : list (option T) :=
  if decide (count rb = 0) then []
  else
    let start := if decide (count rb < capacity rb) then Idx 0
                 else head rb in
    (λ i, array_get (buffer rb)
            (index_mod (index_add start i) (capacity rb)))
      <$> seq 0 (count rb).

Definition clear (rb : t) : t :=
  {| buffer := replicate (capacity rb) None; head := Idx 0; count := 0;
     capacity := capacity rb |}.

Definition size (rb : t) : nat := count rb.
Definition maxSize (rb : t) : nat := capacity rb.

(** [since(ms, now)].  The callback reads [item.timestamp]; on an
    [undefined] item that read throws a TypeError, rendered as [None]. *)
Section Since.
Context (timestamp : T → Z).

Fixpoint filter_since (cutoff : Z) (items : list (option T))
  : option (list T) :=
  match items with
  | [] => Some []
  | None :: _ => None
  | Some item :: rest =>
      kept ← filter_since cutoff rest;
      Some (if decide (cutoff ≤ timestamp item)%Z then item :: kept
            else kept)
  end.

Definition since (ms now : Z) (rb : t) : option (list T) :=
  let cutoff := (now - ms)%Z in
  filter_since cutoff (toArray rb).

(** Timestamps never decrease from one item to the next. *)
Definition nondecreasing (xs : list T) : Prop :=
  Sorted (λ a b, (timestamp a ≤ timestamp b)%Z) xs.

End Since.

(** Every state a client can reach: the constructor followed by calls of
    the two mutators. *)
Inductive op : Type :=
| Push (item : T)
| Clear.

Definition apply_op (rb : t) (o : op) : t :=
  match o with
  | Push item => push item rb
  | Clear => clear rb
  end.

Definition run (capacity : nat) (ops : list op) : t :=
  foldl apply_op (new capacity) ops.

Definition pushes (capacity : nat) (items : list T) : t :=
  run capacity (Push <$> items).

(** The items pushed since the last [clear], oldest first. *)
Definition pushed (ops : list op) : list T :=
  foldl (λ acc o, match o with Push item => acc ++ [item] | Clear => [] end)
        [] ops.

(** The representation invariant of a buffer of positive capacity [C]
    that has received [xs] since it was created or cleared: slot
    [j mod C] holds the [j]-th item for the last [C] values of [j]. *)
Record holds (C : nat) (xs : list T) (rb : t) : Prop := {
  holds_capacity : capacity rb = C;
  holds_length : length (buffer rb) = C;
  holds_count : count rb = length xs `min` C;
  holds_head : head rb = Idx (length xs mod C);
  holds_slots : ∀ j, j < length xs → length xs ≤ j + C →
                     buffer rb !! (j mod C) = Some (xs !! j)
}.

End WithItem.

Arguments t : clear implicits.
Arguments op : clear implicits.

End RingBuffer.

(** ** src/types.ts: events and the phase assessment *)

Module Types.

Inductive EventKind : Set :=
| file_switch
| file_save
| debug_start
| debug_stop
| diagnostic_change
| terminal_command_start
| terminal_command_end
| text_change
| breakpoint_change.

#[export] Instance EventKind_eq_dec : EqDecision EventKind.
Proof. solve_decision. Defined.

(** [ActivityEvent], the union of the nine event interfaces.  Each
    constructor carries the fields of its interface in declaration order,
    after the [timestamp] of [BaseEvent]; the [kind] tag is the
    constructor. *)
Inductive ActivityEvent : Type :=
| FileSwitchEvent (timestamp : Z) (fromUri toUri toLanguageId : option string)
| FileSaveEvent (timestamp : Z) (uri languageId : string)
| DebugStartEvent (timestamp : Z) (sessionName sessionType : string)
| DebugStopEvent (timestamp : Z) (sessionName sessionType : string)
| DiagnosticChangeEvent (timestamp : Z) (uris : list string)
    (totalErrors totalWarnings : Z)
| TerminalCommandStartEvent (timestamp : Z) (commandLine terminalName : string)
| TerminalCommandEndEvent (timestamp : Z) (commandLine terminalName : string)
    (exitCode : option Z)
| TextChangeEvent (timestamp : Z) (uri : string) (changeCount : Z)
| BreakpointChangeEvent (timestamp : Z) (added removed changed : Z).

Definition kind (e : ActivityEvent) : EventKind :=
  match e with
  | FileSwitchEvent _ _ _ _ => file_switch
  | FileSaveEvent _ _ _ => file_save
  | DebugStartEvent _ _ _ => debug_start
  | DebugStopEvent _ _ _ => debug_stop
  | DiagnosticChangeEvent _ _ _ _ => diagnostic_change
  | TerminalCommandStartEvent _ _ _ => terminal_command_start
  | TerminalCommandEndEvent _ _ _ _ => terminal_command_end
  | TextChangeEvent _ _ _ => text_change
  | BreakpointChangeEvent _ _ _ _ => breakpoint_change
  end.

Definition timestamp (e : ActivityEvent) : Z :=
  match e with
  | FileSwitchEvent t _ _ _ | FileSaveEvent t _ _ | DebugStartEvent t _ _
  | DebugStopEvent t _ _ | DiagnosticChangeEvent t _ _ _
  | TerminalCommandStartEvent t _ _ | TerminalCommandEndEvent t _ _ _
  | TextChangeEvent t _ _ | BreakpointChangeEvent t _ _ _ => t
  end.

Inductive WorkflowPhase : Set :=
| exploring
| iterating
| building
| debugging
| archaeology
| unknown.

#[export] Instance WorkflowPhase_eq_dec : EqDecision WorkflowPhase.
Proof. solve_decision. Defined.

Record PhaseAssessment : Type := {
  phase : WorkflowPhase;
  confidence : float;
  reasoning : string;
  recentFiles : list string
}.

End Types.

(** ** The parts of the JavaScript [Math] object the classifier calls,
       on IEEE-754 doubles *)

Module Math.

(** The double nearest to an integer (exact below 2^53). *)
Definition of_Z (z : Z) : float := SF2Prim (binary_normalize prec emax z 0 false).

(** [Math.min(a, b)]: [NaN] if either is [NaN]; [-0] is below [+0]. *)
Definition min (a b : float) : float :=
  if (is_nan a || is_nan b)%bool then nan
  else if (a <? b)%float then a
  else if (b <? a)%float then b
  else if get_sign a then a else b.

(** [Math.round(x)]: the integer nearest to [x], ties going up.  A finite
    double is [±m·2^e]; for [e < 0] the result is
    [floor((±m + 2^(-e-1)) / 2^(-e))], and [-0] when that is 0 for a
    negative [x].  Zeros, infinities, [NaN] and integral values are
    returned unchanged. *)
Definition round (x : float) : float :=
  match Prim2SF x with
  | S754_finite s m e =>
      if (0 <=? e)%Z then x
      else
        let n := if s then Z.neg m else Z.pos m in
        let r := Z.shiftr (n + Z.shiftl 1 (- e - 1)) (- e) in
        if (r =? 0)%Z then (if s then neg_zero else zero) else of_Z r
  | _ => x
  end.

(** The rational a finite double stands for. *)
Definition value (x : float) : option Q :=
  match Prim2SF x with
  | S754_zero _ => Some 0%Q
  | S754_finite s m e =>
      Some (inject_Z (if s then Z.neg m else Z.pos m) * Qpower 2 e)%Q
  | _ => None
  end.

End Math.

(** ** The two regular expressions of src/phaseDetection.ts

    Both carry the [i] flag and no [u] flag.  A string is a sequence of
    code units, here restricted to 0..255. *)

Module Regex.

Inductive re : Set :=
| Lit (word : string)   (* a literal, given in lower case *)
| Spaces                (* \s+ *)
| WordBoundary          (* \b *)
| Seq (r1 r2 : re)
| Alt (r1 r2 : re).

Definition code (c : ascii) : N := N_of_ascii c.

(** [\w] is [A-Za-z0-9_]. *)
Definition is_word_char (c : ascii) : bool :=
  let n := code c in
  ((65 <=? n) && (n <=? 90) || (97 <=? n) && (n <=? 122)
   || (48 <=? n) && (n <=? 57) || (n =? 95))%N.

(** [\s] below U+0100: TAB, LF, VT, FF, CR, SPACE and NBSP. *)
Definition is_space (c : ascii) : bool :=
  let n := code c in
  ((9 <=? n) && (n <=? 13) || (n =? 32) || (n =? 160))%N.

(** Canonicalisation under [i]: only [a-z] fold onto ASCII letters. *)
Definition lower (c : ascii) : ascii :=
  let n := code c in
  if ((65 <=? n) && (n <=? 90))%N then ascii_of_N (n + 32) else c.

Definition is_word (c : option ascii) : bool :=
  match c with
  | Some c => is_word_char c
  | None => false
  end.

Definition first (s : string) : option ascii :=
  match s with
  | EmptyString => None
  | String c _ => Some c
  end.

(** Consume the literal [word] from the front of [s], ignoring case;
    returns the last character consumed and the rest. *)
Fixpoint literal (word : string) (prev : option ascii) (s : string)
  : option (option ascii * string) :=
  match word with
  | EmptyString => Some (prev, s)
  | String w word' =>
      match s with
      | EmptyString => None
      | String c s' =>
          if bool_decide (lower c = w) then literal word' (Some c) s'
          else None
      end
  end.

(** [\s+] followed by the continuation [k]: one or more spaces, every
    length being tried. *)
Fixpoint spaces (k : option ascii → string → bool) (s : string) : bool :=
  match s with
  | EmptyString => false
  | String c s' =>
      if is_space c then k (Some c) s' || spaces k s' else false
  end.

(** [matches r prev s k]: [r] matches a prefix of [s] (the character
    before it being [prev]) and [k] accepts what follows. *)
Fixpoint matches (r : re) (prev : option ascii) (s : string)
  (k : option ascii → string → bool) : bool :=
  match r with
  | Lit word =>
      match literal word prev s with
      | Some (last, rest) => k last rest
      | None => false
      end
  | Spaces => spaces k s
  | WordBoundary =>
      if xorb (is_word prev) (is_word (first s)) then k prev s else false
  | Seq r1 r2 => matches r1 prev s (λ last rest, matches r2 last rest k)
  | Alt r1 r2 => matches r1 prev s k || matches r2 prev s k
  end.

(** [search r prev s]: a match starts at some position of [s]. *)
Fixpoint search (r : re) (prev : option ascii) (s : string) : bool :=
  matches r prev s (λ _ _, true)
  || match s with
     | EmptyString => false
     | String c s' => search r (Some c) s'
     end.

(** [regex.test(s)] *)
Definition test (r : re) (s : string) : bool := search r None s.

Definition alternatives (rs : list re) : re :=
  match rs with
  | [] => Lit ""
  | r :: rs => foldl Alt r rs
  end.

Definition words (ws : list string) : re :=
  match ws with
  | [] => Lit ""
  | w :: ws => foldl (λ r w, Seq r (Seq Spaces (Lit w))) (Lit w) ws
  end.

(** [/\b(test|jest|mocha|pytest|cargo\s+test|npm\s+test|npm\s+run\s+test)\b/i] *)
Definition test_command : re :=
  Seq WordBoundary
    (Seq (alternatives
            [Lit "test"; Lit "jest"; Lit "mocha"; Lit "pytest";
             words ["cargo"; "test"]; words ["npm"; "test"];
             words ["npm"; "run"; "test"]])
         WordBoundary).

(** [/\bgit\s+(blame|log|diff|show|annotate)\b/i] *)
Definition git_history_command : re :=
  Seq WordBoundary
    (Seq (words ["git"])
      (Seq Spaces
        (Seq (alternatives
                [Lit "blame"; Lit "log"; Lit "diff"; Lit "show"; Lit "annotate"])
             WordBoundary))).

End Regex.

(** ** src/phaseDetection.ts *)

Module PhaseDetection.
Import Types.

(** [events.filter(e => e.kind === k)] *)
Definition of_kind (k : EventKind) (events : list ActivityEvent)
  : list ActivityEvent :=
  List.filter (λ e, bool_decide (kind e = k)) events.

(** A [Set<string>] keeps its members in insertion order; [add] of a
    member already present changes nothing. *)
Definition set_add (x : string) (s : list string) : list string :=
  if bool_decide (x ∈ s) then s else s ++ [x].

(** [if (uri) { set.add(uri) }]: [null] and the empty string are falsy. *)
Definition add_if_truthy (uri : option string) (s : list string) : list string :=
  match uri with
  | Some u => if bool_decide (u = "") then s else set_add u s
  | None => s
  end.

Definition add_switch (s : list string) (e : ActivityEvent) : list string :=
  match e with
  | FileSwitchEvent _ fromUri toUri _ =>
      add_if_truthy toUri (add_if_truthy fromUri s)
  | _ => s
  end.

Definition add_change (s : list string) (e : ActivityEvent) : list string :=
  match e with
  | TextChangeEvent _ uri _ => set_add uri s
  | _ => s
  end.

(** The two loops that fill [uniqueFiles]. *)
Definition uniqueFiles (events : list ActivityEvent) : list string :=
  foldl add_change
        (foldl add_switch [] (of_kind file_switch events))
        (of_kind text_change events).

Definition commandLine_matches (r : Regex.re) (e : ActivityEvent) : bool :=
  match e with
  | TerminalCommandStartEvent _ commandLine _ => Regex.test r commandLine
  | _ => false
  end.

Definition testCommands (events : list ActivityEvent) : list ActivityEvent :=
  List.filter (commandLine_matches Regex.test_command)
              (of_kind terminal_command_start events).

Definition gitHistoryCommands (events : list ActivityEvent) : list ActivityEvent :=
  List.filter (commandLine_matches Regex.git_history_command)
              (of_kind terminal_command_start events).

(** The [scores] object; [Object.entries] lists its properties in the
    order they were written in the literal. *)
Record Scores : Set := {
  s_exploring : Z;
  s_iterating : Z;
  s_building : Z;
  s_debugging : Z;
  s_archaeology : Z;
  s_unknown : Z
}.

Definition entries (s : Scores) : list (WorkflowPhase * Z) :=
  [(exploring, s_exploring s); (iterating, s_iterating s);
   (building, s_building s); (debugging, s_debugging s);
   (archaeology, s_archaeology s); (unknown, s_unknown s)].

(** [if (c) { score += n }] starting from 0 *)
Definition when (c : bool) (n : Z) : Z := if c then n else 0%Z.

(** [xs.length] as a number *)
Definition len {A : Type} (xs : list A) : Z := Z.of_nat (length xs).

Definition scores (events : list ActivityEvent) : Scores :=
  let fileSwitches := len (of_kind file_switch events) in
  let textChanges := len (of_kind text_change events) in
  let saves := len (of_kind file_save events) in
  let debugStarts := len (of_kind debug_start events) in
  let debugStops := len (of_kind debug_stop events) in
  let diagnosticChanges := len (of_kind diagnostic_change events) in
  let breakpointChanges := len (of_kind breakpoint_change events) in
  let files := len (uniqueFiles events) in
  let tests := len (testCommands events) in
  let gits := len (gitHistoryCommands events) in
  {| s_exploring :=
       (when ((4 <=? fileSwitches) && (textChanges <=? 1)) 3
        + when ((3 <=? files) && (textChanges =? 0)) 2)%Z;
     s_iterating :=
       (when ((2 <=? textChanges) && (1 <=? saves)) 2
        + when ((1 <=? tests) && (1 <=? textChanges)) 3
        + when (2 <=? diagnosticChanges) 1)%Z;
     s_building :=
       (when ((3 <=? textChanges) && (fileSwitches <=? 2)) 3
        + when ((2 <=? saves) && (2 <=? textChanges) && (fileSwitches <=? 1)) 2)%Z;
     s_debugging :=
       (when (debugStops <? debugStarts) 4
        + when (1 <=? breakpointChanges) 2
        + when (1 <=? debugStarts) 1)%Z;
     s_archaeology :=
       (when (1 <=? gits) 3
        + when ((3 <=? fileSwitches) && (textChanges =? 0) && (1 <=? gits)) 2)%Z;
     s_unknown := 0 |}.

(** [scores[phase]] *)
Definition score (s : Scores) (p : WorkflowPhase) : Z :=
  match p with
  | exploring => s_exploring s
  | iterating => s_iterating s
  | building => s_building s
  | debugging => s_debugging s
  | archaeology => s_archaeology s
  | unknown => s_unknown s
  end.

(** One turn of the winner loop: [if (score > bestScore) { ... }]. *)
Definition better (best entry : WorkflowPhase * Z) : WorkflowPhase * Z :=
  if (best.2 <? entry.2)%Z then entry else best.

Definition winner (s : Scores) : WorkflowPhase * Z :=
  foldl better (unknown, 0%Z) (entries s).

Definition generateReasoning (phase : WorkflowPhase)
  (events : list ActivityEvent) (files : list string) : string :=
  let fileCount := pretty (length files) in
  let editCount := pretty (length (of_kind text_change events)) in
  let switchCount := pretty (length (of_kind file_switch events)) in
  match phase with
  | exploring =>
      "Navigated across " +:+ fileCount +:+ " files with " +:+ switchCount
      +:+ " switches and minimal edits (" +:+ editCount +:+ ")"
  | iterating =>
      "Making edits (" +:+ editCount
      +:+ ") and running tests/builds across " +:+ fileCount +:+ " files"
  | building =>
      "Actively writing code with " +:+ editCount
      +:+ " edit bursts, focused on " +:+ fileCount +:+ " files"
  | debugging =>
      "Debug session active with breakpoint activity across " +:+ fileCount
      +:+ " files"
  | archaeology =>
      "Browsing git history and navigating " +:+ fileCount
      +:+ " files without edits"
  | unknown =>
      "Activity pattern unclear (" +:+ pretty (length events) +:+ " events, "
      +:+ fileCount +:+ " files)"
  end.

(** [Math.round(Math.min(1, bestScore / 5) * 100) / 100] *)
Definition confidence_of (bestScore : Z) : float :=
  let confidence := Math.min 1 (Math.of_Z bestScore / 5) in
  (Math.round (confidence * 100) / 100)%float.

Definition detectPhase (events : list ActivityEvent) : PhaseAssessment :=
  if length events <? 3 then
    {| phase := unknown; confidence := 0; reasoning := "Insufficient activity";
       recentFiles := [] |}
  else
    let files := uniqueFiles events in
    let '(bestPhase, bestScore) := winner (scores events) in
    {| phase := bestPhase;
       confidence := confidence_of bestScore;
       reasoning := generateReasoning bestPhase events files;
       recentFiles := take 5 files |}.

(** *** Vocabulary of the specification *)

(** The evaluation order named by the specification. *)
Definition rank (p : WorkflowPhase) : nat :=
  match p with
  | exploring => 0
  | iterating => 1
  | building => 2
  | debugging => 3
  | archaeology => 4
  | unknown => 5
  end.

(** The distinct members of a list, each at its first occurrence. *)
Fixpoint distinct (l : list string) : list string :=
  match l with
  | [] => []
  | x :: l' => x :: filter (λ y, y ≠ x) (distinct l')
  end.

Definition present (uri : option string) : list string :=
  match uri with
  | Some u => [u]
  | None => []
  end.

(** The resource ids an event refers to. *)
Definition referenced (e : ActivityEvent) : list string :=
  match e with
  | FileSwitchEvent _ fromUri toUri _ => present fromUri ++ present toUri
  | TextChangeEvent _ uri _ => [uri]
  | _ => []
  end.

(** [recentFiles] as the specification words it: the ids referenced in
    the window, in order of first occurrence, cut to five. *)
Definition spec_recentFiles (events : list ActivityEvent) : list string :=
  take 5 (distinct (concat (referenced <$> events))).

Definition nonempty (uri : option string) : list string :=
  match uri with
  | Some u => if bool_decide (u = "") then [] else [u]
  | None => []
  end.

(** The endpoints a [file_switch] contributes: those that are neither
    [null] nor the empty string, origin first. *)
Definition switch_ids (e : ActivityEvent) : list string :=
  match e with
  | FileSwitchEvent _ fromUri toUri _ => nonempty fromUri ++ nonempty toUri
  | _ => []
  end.

Definition change_ids (e : ActivityEvent) : list string :=
  match e with
  | TextChangeEvent _ uri _ => [uri]
  | _ => []
  end.

(** Two decimal places, halves going up. *)
Definition round2 (q : Q) : Q :=
  (inject_Z (Qfloor (q * 100 + (1 # 2))%Q) / 100)%Q.

(** Confidence as the specification words it, on exact rationals. *)
Definition spec_confidence (bestScore : Z) : Q :=
  round2 (Qmin 1 (inject_Z bestScore / 5)%Q).

End PhaseDetection.

(** ** src/eventLog.ts

    The host calls the listeners registered by [start()] one at a time;
    each call is a [signal], delivered together with the value [Date.now()]
    has during the call.  A pending [setTimeout] is a [timer]; the run of
    its callback is the signal [TimerFires].

    The callback itself tests nothing.  That it does not run before its
    delay has passed is the host's part, and the model reads the delay
    off [Date.now()]: a [TimerFires] signal that comes earlier is taken
    not to happen.  A host that measures the delay with another clock
    can run the callback when [Date.now()] reads a millisecond less;
    only the properties that speak of the delay depend on this. *)

Module EventLog.
Import Types.

Definition DEFAULT_BUFFER_SIZE : nat := 200.
Definition TEXT_CHANGE_DEBOUNCE_MS : Z := 2000.

(** A timer set by the text-change listener: when it is due, and the
    [uri] and [changeCount] its callback has captured. *)
Record timer : Type := {
  due : Z;
  captured_uri : string;
  captured_changeCount : Z
}.

Record t : Type := {
  buffer : RingBuffer.t ActivityEvent;
  lastActiveUri : option string;
  textChangeTimers : gmap string timer
}.

(** [new EventLog(bufferSize)]: [eventBufferSize] is the configured value,
    if any, and [active] the document of the active editor, if any. *)
Definition new (bufferSize eventBufferSize : option nat)
    (active : option string) : t :=
  let size := match bufferSize with
              | Some n => n
              | None => default DEFAULT_BUFFER_SIZE eventBufferSize
              end in
  {| buffer := RingBuffer.new size;
     lastActiveUri := active;
     textChangeTimers := ∅ |}.

Inductive DiagnosticSeverity : Set :=
| Error
| Warning
| Information
| Hint.

Inductive signal : Type :=
| DidChangeActiveTextEditor (toUri toLang : option string)
| DidSaveTextDocument (uri languageId : string)
| DidStartDebugSession (name type : string)
| DidTerminateDebugSession (name type : string)
| DidChangeDiagnostics (uris : list string)
    (allDiags : list (string * list DiagnosticSeverity))
| DidStartTerminalShellExecution (commandLine terminalName : string)
| DidEndTerminalShellExecution (commandLine terminalName : string)
    (exitCode : option Z)
| DidChangeTextDocument (uri : string) (contentChanges : nat)
| DidChangeBreakpoints (added removed changed : nat)
| TimerFires (uri : string).

Definition record (e : ActivityEvent) (log : t) : t :=
  {| buffer := RingBuffer.push e (buffer log);
     lastActiveUri := lastActiveUri log;
     textChangeTimers := textChangeTimers log |}.

Definition count_severity (sev : DiagnosticSeverity)
  (allDiags : list (string * list DiagnosticSeverity)) : Z :=
  Z.of_nat (length (List.filter
    (λ d, match sev, d with
          | Error, Error | Warning, Warning => true
          | _, _ => false
          end)
    (concat (snd <$> allDiags)))).

(** One listener call. *)
Definition handle (now : Z) (sig : signal) (log : t) : t :=
  match sig with
  | DidChangeActiveTextEditor toUri toLang =>
      if bool_decide (toUri = lastActiveUri log) then log
      else
        {| buffer := RingBuffer.push
                       (FileSwitchEvent now (lastActiveUri log) toUri toLang)
                       (buffer log);
           lastActiveUri := toUri;
           textChangeTimers := textChangeTimers log |}
  | DidSaveTextDocument uri languageId =>
      record (FileSaveEvent now uri languageId) log
  | DidStartDebugSession name type =>
      record (DebugStartEvent now name type) log
  | DidTerminateDebugSession name type =>
      record (DebugStopEvent now name type) log
  | DidChangeDiagnostics uris allDiags =>
      record (DiagnosticChangeEvent now uris
                (count_severity Error allDiags)
                (count_severity Warning allDiags)) log
  | DidStartTerminalShellExecution commandLine terminalName =>
      record (TerminalCommandStartEvent now commandLine terminalName) log
  | DidEndTerminalShellExecution commandLine terminalName exitCode =>
      record (TerminalCommandEndEvent now commandLine terminalName exitCode) log
  | DidChangeTextDocument uri contentChanges =>
      if bool_decide (contentChanges = 0) then log
      else
        (* clearTimeout(existing); textChangeTimers.set(uri, setTimeout(...)) *)
        {| buffer := buffer log;
           lastActiveUri := lastActiveUri log;
           textChangeTimers :=
             <[uri := {| due := (now + TEXT_CHANGE_DEBOUNCE_MS)%Z;
                         captured_uri := uri;
                         captured_changeCount := Z.of_nat contentChanges |}]>
               (textChangeTimers log) |}
  | DidChangeBreakpoints added removed changed =>
      record (BreakpointChangeEvent now (Z.of_nat added) (Z.of_nat removed)
                (Z.of_nat changed)) log
  | TimerFires uri =>
      (* only a pending timer runs, and not before it is due *)
      match textChangeTimers log !! uri with
      | Some tm =>
          if bool_decide (due tm ≤ now)%Z then
            {| buffer := RingBuffer.push
                           (TextChangeEvent now (captured_uri tm)
                              (captured_changeCount tm))
                           (buffer log);
               lastActiveUri := lastActiveUri log;
               textChangeTimers := delete (captured_uri tm) (textChangeTimers log) |}
          else log
      | None => log
      end
  end.

Definition run (trace : list (Z * signal)) (log : t) : t :=
  foldl (λ log '(now, sig), handle now sig log) log trace.

(** [snapshot(windowMs)], [now] being [Date.now()] *)
Definition snapshot (windowMs now : Z) (log : t) : option (list ActivityEvent) :=
  RingBuffer.since Types.timestamp windowMs now (buffer log).

(** [all()] *)
Definition all (log : t) : list (option ActivityEvent) :=
  RingBuffer.toArray (buffer log).

(** [dispose()] *)
Definition dispose (log : t) : t :=
  {| buffer := buffer log; lastActiveUri := lastActiveUri log;
     textChangeTimers := ∅ |}.

(** *** Vocabulary of the specification *)

(** A burst of text-change notifications for one resource, as pairs of
    arrival time and number of change batches: each carries at least one
    batch and arrives less than 2000 ms after the one before, at [prev]. *)
Fixpoint debounced (prev : Z) (burst : list (Z * nat)) : Prop :=
  match burst with
  | [] => True
  | (at_, n) :: rest =>
      (prev ≤ at_)%Z ∧ (at_ < prev + TEXT_CHANGE_DEBOUNCE_MS)%Z ∧ 0 < n
      ∧ debounced at_ rest
  end.

(** What the host does during the burst: at each arrival the runtime has
    had the chance to run a due timer of the resource, then the listener
    is called. *)
Definition burst_trace (uri : string) (burst : list (Z * nat))
  : list (Z * signal) :=
  concat ((λ '(at_, n), [(at_, TimerFires uri);
                         (at_, DidChangeTextDocument uri n)]) <$> burst).

(** The number of change batches observed over a burst. *)
Definition total_changes (burst : list (Z * nat)) : Z :=
  Z.of_nat (sum_list (snd <$> burst)).

(** The resource that is active after [events], [prev] being active
    before: the [toUri] of the last [file_switch]. *)
Definition active_after (prev : option string) (events : list ActivityEvent)
  : option string :=
  foldl (λ active e, match e with
                     | FileSwitchEvent _ _ toUri _ => toUri
                     | _ => active
                     end) prev events.

(** The [file_switch] events link up: each leaves the resource the one
    before it entered ([prev] for the first) and enters another one. *)
Fixpoint chained (prev : option string) (events : list ActivityEvent) : Prop :=
  match events with
  | [] => True
  | FileSwitchEvent _ fromUri toUri _ :: rest =>
      fromUri = prev ∧ toUri ≠ fromUri ∧ chained toUri rest
  | _ :: rest => chained prev rest
  end.

(** The signal is a text-change notification for [uri] that carries
    changes: it sets the timer of [uri] anew. *)
Definition renews (uri : string) (sig : signal) : Prop :=
  match sig with
  | DidChangeTextDocument uri' contentChanges =>
      uri' = uri ∧ 0 < contentChanges
  | _ => False
  end.

(** A [text_change] event was pushed by a run of the timer callback of
    its resource and is stamped with the time of that run; its
    [changeCount] is the number of change batches, which is positive, of
    the latest notification that set the timer of the resource before
    that run. *)
Definition reported (trace : list (Z * signal)) (e : ActivityEvent) : Prop :=
  match e with
  | TextChangeEvent ts uri changeCount =>
      ∃ (before : list (Z * signal)) (at_ : Z) (n : nat)
        (between after : list (Z * signal)),
        trace = before ++ (at_, DidChangeTextDocument uri n)
                          :: between ++ (ts, TimerFires uri) :: after
        ∧ 0 < n
        ∧ changeCount = Z.of_nat n
        ∧ Forall (λ call, ¬ renews uri call.2) between
  | _ => True
  end.

(** A pending timer of [uri] was set by the latest notification of the
    trace that carries changes for [uri], and has captured its count. *)
Definition scheduled (trace : list (Z * signal)) (uri : string) (tm : timer)
  : Prop :=
  captured_uri tm = uri
  ∧ ∃ (before : list (Z * signal)) (at_ : Z) (n : nat)
      (between : list (Z * signal)),
      trace = before ++ (at_, DidChangeTextDocument uri n) :: between
      ∧ 0 < n
      ∧ captured_changeCount tm = Z.of_nat n
      ∧ Forall (λ call, ¬ renews uri call.2) between.

(** What a log created with capacity [C] and active resource [active]
    satisfies after the listener calls of [trace], [events] being the
    events pushed so far. *)
Record recorded (C : nat) (active : option string) (trace : list (Z * signal))
    (events : list ActivityEvent) (log : t) : Prop := {
  recorded_buffer : buffer log = RingBuffer.pushes C events;
  recorded_chain : chained active events;
  recorded_active : lastActiveUri log = active_after active events;
  recorded_reports : Forall (reported trace) events;
  recorded_timers : ∀ uri tm, textChangeTimers log !! uri = Some tm →
                              scheduled trace uri tm;
  recorded_times : (timestamp <$> events) `sublist_of` (fst <$> trace)
}.

(** The signal is the run of a timer callback. *)
Definition is_timer (sig : signal) : Prop :=
  match sig with
  | TimerFires _ => True
  | _ => False
  end.

(** The signal is a text-change notification for [uri] or the run of the
    timer of [uri]. *)
Definition concerns (uri : string) (sig : signal) : Prop :=
  match sig with
  | DidChangeTextDocument uri' _ | TimerFires uri' => uri' = uri
  | _ => False
  end.

End EventLog.

(** ** src/httpClient.ts

    [https.request] is the environment: it delivers the response (its
    status code, then [data] chunks, then [end]) and [error] events.  The
    promise returned by [postJson] settles once; later calls of [resolve]
    and [reject] are ignored.

    A chunk is carried as the text that [body += chunk] makes of it: each
    chunk is converted on its own.  A connection that is lost after the
    response has started is reported by Node on the response object
    ([aborted], [error] and [close] on [res], and no [end]), not on the
    request; [postJson] registers no listener for it. *)

Module HttpClient.

Inductive failure : Type :=
| Thrown (err : string)          (* caught by the [try] block *)
| TransportError (err : string)  (* the argument of the [error] event *)
| StatusError (message : string) (* [new Error('Status ...')] *).

Inductive promise : Type :=
| Pending
| Resolved
| Rejected (reason : failure).

Definition resolve (p : promise) : promise :=
  match p with
  | Pending => Resolved
  | _ => p
  end.

Definition reject (reason : failure) (p : promise) : promise :=
  match p with
  | Pending => Rejected reason
  | _ => p
  end.

Inductive net_event : Type :=
| Response (statusCode : option Z)
| Data (chunk : string)
| EndOfResponse
| RequestError (err : string)     (* [error] on the request *)
| ResponseAborted (err : string)  (* the connection is lost while the
                                     response is being received *).

(** The request in flight: the promise, and once the response callback
    has run, [res.statusCode] and the [body] accumulated so far. *)
Record exchange : Type := {
  settled : promise;
  response : option (option Z * string)
}.

(** ['Status ' + res.statusCode] *)
Definition show_status (statusCode : option Z) : string :=
  match statusCode with
  | Some n => pretty n
  | None => "undefined"
  end.

(** [res.statusCode && res.statusCode >= 200 && res.statusCode < 300] *)
Definition is_success (statusCode : option Z) : bool :=
  match statusCode with
  | Some n => negb (n =? 0)%Z && (200 <=? n)%Z && (n <? 300)%Z
  | None => false
  end.

Definition on_event (x : exchange) (ev : net_event) : exchange :=
  match ev with
  | Response statusCode =>
      {| settled := settled x; response := Some (statusCode, "") |}
  | Data chunk =>
      match response x with
      | Some (statusCode, body) =>
          {| settled := settled x; response := Some (statusCode, body +:+ chunk) |}
      | None => x
      end
  | EndOfResponse =>
      match response x with
      | Some (statusCode, body) =>
          {| settled :=
               if is_success statusCode then resolve (settled x)
               else reject (StatusError ("Status " +:+ show_status statusCode
                                         +:+ " body: " +:+ body))
                           (settled x);
             response := response x |}
      | None => x
      end
  | RequestError err =>
      {| settled := reject (TransportError err) (settled x);
         response := response x |}
  | ResponseAborted _ => x  (* no listener *)
  end.

(** What the environment does with one call of [postJson]: either
    something in the [try] block throws (an endpoint that is not a URL,
    data that cannot be serialised), or the request is sent and network
    events follow. *)
Inductive outcome : Type :=
| Throws (err : string)
| Sent (events : list net_event).

Definition postJson (env : outcome) : promise :=
  match env with
  | Throws err => reject (Thrown err) Pending
  | Sent events =>
      settled (foldl on_event {| settled := Pending; response := None |} events)
  end.

(** An event that brings neither the end of the response nor an error. *)
Definition carries_no_verdict (ev : net_event) : Prop :=
  match ev with
  | Response _ | Data _ => True
  | EndOfResponse | RequestError _ | ResponseAborted _ => False
  end.




End HttpClient.

(** ** The runtime's [JSON.stringify] and [JSON.parse]

    [postJson] sends [JSON.stringify(bundle)] and the integration tests
    read it back with [JSON.parse].  Both are built-ins; they are modelled
    after ECMA-262 (SerializeJSONProperty, SerializeJSONObject,
    SerializeJSONArray) on the data a bundle is made of.  The JSON text is
    kept as its document tree: printing a tree and reading it back is
    taken to be lossless, as it is for strings and finite doubles. *)

Module JSON.

Local Unset Elimination Schemes.

(** JavaScript values: an object is the list of its own properties in
    insertion order. *)
Inductive value : Type :=
| Undefined
| Null
| Bool (b : bool)
| Number (x : float)
| Str (s : string)
| Array (items : list value)
| Object (props : list (string * value)).

(** JSON documents. *)
Inductive json : Type :=
| JNull
| JBool (b : bool)
| JNumber (x : float)
| JString (s : string)
| JArray (items : list json)
| JObject (members : list (string * json)).

Local Set Elimination Schemes.

(** Induction over values and documents, through the lists they nest. *)
Definition value_ind' (P : value → Prop)
    (Hundefined : P Undefined) (Hnull : P Null)
    (Hbool : ∀ b, P (Bool b)) (Hnumber : ∀ x, P (Number x))
    (Hstr : ∀ s, P (Str s))
    (Harray : ∀ items, Forall P items → P (Array items))
    (Hobject : ∀ props, Forall (λ p, P p.2) props → P (Object props))
  : ∀ v, P v :=
  fix go (v : value) : P v :=
    match v with
    | Undefined => Hundefined
    | Null => Hnull
    | Bool b => Hbool b
    | Number x => Hnumber x
    | Str s => Hstr s
    | Array items =>
        Harray items
          ((fix all (l : list value) : Forall P l :=
              match l with
              | [] => @List.Forall_nil _ P
              | x :: l' => @List.Forall_cons _ P x l' (go x) (all l')
              end) items)
    | Object props =>
        Hobject props
          ((fix all (l : list (string * value)) : Forall (λ p, P p.2) l :=
              match l with
              | [] => @List.Forall_nil _ _
              | p :: l' => @List.Forall_cons _ (λ p, P p.2) p l' (go p.2) (all l')
              end) props)
    end.

Definition json_ind' (P : json → Prop)
    (Hnull : P JNull) (Hbool : ∀ b, P (JBool b))
    (Hnumber : ∀ x, P (JNumber x)) (Hstring : ∀ s, P (JString s))
    (Harray : ∀ items, Forall P items → P (JArray items))
    (Hobject : ∀ members, Forall (λ m, P m.2) members → P (JObject members))
  : ∀ j, P j :=
  fix go (j : json) : P j :=
    match j with
    | JNull => Hnull
    | JBool b => Hbool b
    | JNumber x => Hnumber x
    | JString s => Hstring s
    | JArray items =>
        Harray items
          ((fix all (l : list json) : Forall P l :=
              match l with
              | [] => @List.Forall_nil _ P
              | x :: l' => @List.Forall_cons _ P x l' (go x) (all l')
              end) items)
    | JObject members =>
        Hobject members
          ((fix all (l : list (string * json)) : Forall (λ m, P m.2) l :=
              match l with
              | [] => @List.Forall_nil _ _
              | m :: l' => @List.Forall_cons _ (λ m, P m.2) m l' (go m.2) (all l')
              end) members)
    end.

(** [-0] is printed as [0]. *)
Definition is_neg_zero (x : float) : bool := is_zero x && get_sign x.

(** [JSON.stringify(v)]: [None] stands for the result [undefined].  A
    property whose value is [undefined] is left out; an [undefined] array
    element and a number that is not finite become [null]. *)
Fixpoint stringify (v : value) : option json :=
  match v with
  | Undefined => None
  | Null => Some JNull
  | Bool b => Some (JBool b)
  | Number x =>
      Some (if is_finite x then JNumber (if is_neg_zero x then zero else x)
            else JNull)
  | Str s => Some (JString s)
  | Array items =>
      Some (JArray ((λ item, default JNull (stringify item)) <$> items))
  | Object props =>
      Some (JObject
        (omap (λ p, match stringify p.2 with
                    | Some j => Some (p.1, j)
                    | None => None
                    end) props))
  end.

(** [JSON.parse] of the text of a document. *)
Fixpoint parse (j : json) : value :=
  match j with
  | JNull => Null
  | JBool b => Bool b
  | JNumber x => Number x
  | JString s => Str s
  | JArray items => Array (parse <$> items)
  | JObject members =>
      Object ((λ m, (m.1, parse m.2)) <$> members)
  end.

(** [JSON.parse(JSON.stringify(v))] *)
Definition roundtrip (v : value) : option value := parse <$> stringify v.

(** [obj[key]]: a missing property reads as [undefined]. *)
Fixpoint get (key : string) (props : list (string * value)) : value :=
  match props with
  | [] => Undefined
  | (k, v) :: rest => if bool_decide (k = key) then v else get key rest
  end.

(** *** Vocabulary of the specification *)

(** No [undefined] anywhere: not as a property value, not as an
    element. *)
Fixpoint undefined_free (v : value) : bool :=
  match v with
  | Undefined => false
  | Array items => forallb undefined_free items
  | Object props => forallb (λ p, undefined_free p.2) props
  | _ => true
  end.

(** Every number is finite and is not [-0]. *)
Fixpoint numbers_exact (v : value) : bool :=
  match v with
  | Number x => is_finite x && negb (is_neg_zero x)
  | Array items => forallb numbers_exact items
  | Object props => forallb (λ p, numbers_exact p.2) props
  | _ => true
  end.

Definition is_undefined (v : value) : bool :=
  match v with
  | Undefined => true
  | _ => false
  end.

(** The shape of plain data: property names are distinct within an
    object and no array has an [undefined] element. *)
Fixpoint shaped (v : value) : bool :=
  match v with
  | Array items =>
      forallb (λ item, negb (is_undefined item) && shaped item) items
  | Object props =>
      bool_decide (NoDup props.*1) && forallb (λ p, shaped p.2) props
  | _ => true
  end.

Local Unset Elimination Schemes.

(** Two values agree on every read: same scalars, arrays agreeing
    element by element, objects agreeing on [obj[key]] for every key. *)
Inductive agree : value → value → Prop :=
| agree_undefined : agree Undefined Undefined
| agree_null : agree Null Null
| agree_bool b : agree (Bool b) (Bool b)
| agree_number x : agree (Number x) (Number x)
| agree_str s : agree (Str s) (Str s)
| agree_array items items' :
    Forall2 agree items items' → agree (Array items) (Array items')
| agree_object props props' :
    (∀ key, agree (get key props) (get key props')) →
    agree (Object props) (Object props').

Local Set Elimination Schemes.

End JSON.

(** ** src/types.ts: polled state and the context bundle, and the
       objects that stand for them at run time *)

Module EditorState.
Record t : Type := {
  uri : string;
  languageId : string;
  cursorLine : Z;
  cursorColumn : Z;
  selectionText : string;
  selectionStartLine : Z;
  selectionEndLine : Z;
  visibleRangeStart : Z;
  visibleRangeEnd : Z;
  lineCount : Z;
  isDirty : bool
}.
End EditorState.

Module TabInfo.
Record t : Type := {
  uri : string;
  label : string;
  isDirty : bool;
  isActive : bool;
  isPinned : bool
}.
End TabInfo.

Module DiagnosticInfo.
Inductive severity_t : Set :=
| error
| warning
| info
| hint.

Record t : Type := {
  uri : string;
  severity : severity_t;
  message : string;
  line : Z;
  source : string
}.
End DiagnosticInfo.

Module BreakpointInfo.
Record t : Type := {
  uri : string;
  line : Z;
  enabled : bool;
  condition : option string
}.
End BreakpointInfo.

Module GitStatus.
Record t : Type := {
  branch : string;
  ahead : Z;
  behind : Z;
  staged : list string;
  modified : list string;
  untracked : list string
}.
End GitStatus.

Module PolledState.
Record t : Type := {
  activeEditor : option EditorState.t;
  openTabs : list TabInfo.t;
  dirtyFiles : list string;
  diagnostics : list DiagnosticInfo.t;
  breakpoints : list BreakpointInfo.t;
  gitStatus : option GitStatus.t;
  workspaceFolders : list string
}.
End PolledState.

Module Selection.
Record t : Type := {
  uri : string;
  startLine : Z;
  endLine : Z;
  snippet : string;
  languageId : string
}.
End Selection.

Module ContextBundle.
Import Types JSON.

(** [version] is the literal type [1] and has no field here. *)
Record t : Type := {
  timestamp : string;
  eventLog : list ActivityEvent;
  state : PolledState.t;
  phase : PhaseAssessment;
  selection : option Selection.t
}.

(** *** The run-time objects

    Property names and their order are those of the object literals that
    build each value ([eventLog.ts], [polledState.ts], [phaseDetection.ts],
    [contextAssembly.ts]). *)

Definition num (z : Z) : value := Number (Math.of_Z z).
Definition strings (l : list string) : value := Array (Str <$> l).

(** [string | null] *)
Definition nullable (s : option string) : value :=
  match s with
  | Some s => Str s
  | None => Null
  end.

Definition kind_tag (k : EventKind) : string :=
  match k with
  | file_switch => "file_switch"
  | file_save => "file_save"
  | debug_start => "debug_start"
  | debug_stop => "debug_stop"
  | diagnostic_change => "diagnostic_change"
  | terminal_command_start => "terminal_command_start"
  | terminal_command_end => "terminal_command_end"
  | text_change => "text_change"
  | breakpoint_change => "breakpoint_change"
  end.

Definition of_event (e : ActivityEvent) : value :=
  Object
    (("kind", Str (kind_tag (kind e))) :: ("timestamp", num (Types.timestamp e))
     :: match e with
        | FileSwitchEvent _ fromUri toUri toLanguageId =>
            [("fromUri", nullable fromUri); ("toUri", nullable toUri);
             ("toLanguageId", nullable toLanguageId)]
        | FileSaveEvent _ uri languageId =>
            [("uri", Str uri); ("languageId", Str languageId)]
        | DebugStartEvent _ sessionName sessionType
        | DebugStopEvent _ sessionName sessionType =>
            [("sessionName", Str sessionName); ("sessionType", Str sessionType)]
        | DiagnosticChangeEvent _ uris totalErrors totalWarnings =>
            [("uris", strings uris); ("totalErrors", num totalErrors);
             ("totalWarnings", num totalWarnings)]
        | TerminalCommandStartEvent _ commandLine terminalName =>
            [("commandLine", Str commandLine); ("terminalName", Str terminalName)]
        | TerminalCommandEndEvent _ commandLine terminalName exitCode =>
            [("commandLine", Str commandLine); ("terminalName", Str terminalName);
             ("exitCode", match exitCode with
                          | Some code => num code
                          | None => Undefined
                          end)]
        | TextChangeEvent _ uri changeCount =>
            [("uri", Str uri); ("changeCount", num changeCount)]
        | BreakpointChangeEvent _ added removed changed =>
            [("added", num added); ("removed", num removed);
             ("changed", num changed)]
        end).

Definition of_editor (ed : EditorState.t) : value :=
  Object
    [("uri", Str (EditorState.uri ed));
     ("languageId", Str (EditorState.languageId ed));
     ("cursorLine", num (EditorState.cursorLine ed));
     ("cursorColumn", num (EditorState.cursorColumn ed));
     ("selectionText", Str (EditorState.selectionText ed));
     ("selectionStartLine", num (EditorState.selectionStartLine ed));
     ("selectionEndLine", num (EditorState.selectionEndLine ed));
     ("visibleRangeStart", num (EditorState.visibleRangeStart ed));
     ("visibleRangeEnd", num (EditorState.visibleRangeEnd ed));
     ("lineCount", num (EditorState.lineCount ed));
     ("isDirty", Bool (EditorState.isDirty ed))].

Definition of_tab (tab : TabInfo.t) : value :=
  Object
    [("uri", Str (TabInfo.uri tab)); ("label", Str (TabInfo.label tab));
     ("isDirty", Bool (TabInfo.isDirty tab));
     ("isActive", Bool (TabInfo.isActive tab));
     ("isPinned", Bool (TabInfo.isPinned tab))].

Definition severity_tag (sev : DiagnosticInfo.severity_t) : string :=
  match sev with
  | DiagnosticInfo.error => "error"
  | DiagnosticInfo.warning => "warning"
  | DiagnosticInfo.info => "info"
  | DiagnosticInfo.hint => "hint"
  end.

Definition of_diagnostic (d : DiagnosticInfo.t) : value :=
  Object
    [("uri", Str (DiagnosticInfo.uri d));
     ("severity", Str (severity_tag (DiagnosticInfo.severity d)));
     ("message", Str (DiagnosticInfo.message d));
     ("line", num (DiagnosticInfo.line d));
     ("source", Str (DiagnosticInfo.source d))].

(** [condition: bp.condition]: the property is always written, with the
    value [undefined] when the breakpoint has no condition. *)
Definition of_breakpoint (bp : BreakpointInfo.t) : value :=
  Object
    [("uri", Str (BreakpointInfo.uri bp));
     ("line", num (BreakpointInfo.line bp));
     ("enabled", Bool (BreakpointInfo.enabled bp));
     ("condition", match BreakpointInfo.condition bp with
                   | Some c => Str c
                   | None => Undefined
                   end)].

Definition of_git (g : GitStatus.t) : value :=
  Object
    [("branch", Str (GitStatus.branch g));
     ("ahead", num (GitStatus.ahead g));
     ("behind", num (GitStatus.behind g));
     ("staged", strings (GitStatus.staged g));
     ("modified", strings (GitStatus.modified g));
     ("untracked", strings (GitStatus.untracked g))].

Definition of_state (st : PolledState.t) : value :=
  Object
    [("activeEditor", match PolledState.activeEditor st with
                      | Some ed => of_editor ed
                      | None => Null
                      end);
     ("openTabs", Array (of_tab <$> PolledState.openTabs st));
     ("dirtyFiles", strings (PolledState.dirtyFiles st));
     ("diagnostics", Array (of_diagnostic <$> PolledState.diagnostics st));
     ("breakpoints", Array (of_breakpoint <$> PolledState.breakpoints st));
     ("gitStatus", match PolledState.gitStatus st with
                   | Some g => of_git g
                   | None => Null
                   end);
     ("workspaceFolders", strings (PolledState.workspaceFolders st))].

Definition phase_tag (p : WorkflowPhase) : string :=
  match p with
  | exploring => "exploring"
  | iterating => "iterating"
  | building => "building"
  | debugging => "debugging"
  | archaeology => "archaeology"
  | unknown => "unknown"
  end.

Definition of_phase (a : PhaseAssessment) : value :=
  Object
    [("phase", Str (phase_tag (Types.phase a)));
     ("confidence", Number (confidence a));
     ("reasoning", Str (reasoning a));
     ("recentFiles", strings (recentFiles a))].

Definition of_selection (sel : Selection.t) : value :=
  Object
    [("uri", Str (Selection.uri sel));
     ("startLine", num (Selection.startLine sel));
     ("endLine", num (Selection.endLine sel));
     ("snippet", Str (Selection.snippet sel));
     ("languageId", Str (Selection.languageId sel))].

(** The object [assembleContext] returns: [selection] is always written,
    with the value [undefined] when nothing is selected. *)
Definition to_value (b : t) : value :=
  Object
    [("version", num 1);
     ("timestamp", Str (timestamp b));
     ("eventLog", Array (of_event <$> eventLog b));
     ("state", of_state (state b));
     ("phase", of_phase (phase b));
     ("selection", match selection b with
                   | Some sel => of_selection sel
                   | None => Undefined
                   end)].

(** *** Vocabulary of the specification *)

Definition event_defined (e : ActivityEvent) : bool :=
  match e with
  | TerminalCommandEndEvent _ _ _ None => false
  | _ => true
  end.

(** No field of the bundle has the value [undefined]: every ended
    command has an exit code, every breakpoint a condition, and there is
    a selection. *)
Definition fully_defined (b : t) : bool :=
  forallb event_defined (eventLog b)
  && forallb (λ bp, bool_decide (is_Some (BreakpointInfo.condition bp)))
             (PolledState.breakpoints (state b))
  && bool_decide (is_Some (selection b)).

(** The minimal bundle of [formatBundle.test.ts], with one ended command
    in its event log and a selection. *)
Definition sample (exitCode : option Z) : t :=
  {| timestamp := "2026-02-12T12:00:00.000Z";
     eventLog := [TerminalCommandEndEvent 1739361600000 "npm test" "bash" exitCode];
     state := {| PolledState.activeEditor := None;
                 PolledState.openTabs := [];
                 PolledState.dirtyFiles := [];
                 PolledState.diagnostics := [];
                 PolledState.breakpoints := [];
                 PolledState.gitStatus := None;
                 PolledState.workspaceFolders := [] |};
     phase := {| Types.phase := unknown; confidence := 0;
                 reasoning := "Insufficient activity"; recentFiles := [] |};
     selection := Some {| Selection.uri := "file:///src/main.ts";
                          Selection.startLine := 1; Selection.endLine := 2;
                          Selection.snippet := "let x";
                          Selection.languageId := "typescript" |} |}.

End ContextBundle.

(** ** polledState.ts: [pollDiagnostics] and [pollGitStatus]

    The host is read through its values at the time of the call:
    [vscode.languages.getDiagnostics()], the setting
    [ctxbridge.maxDiagnosticsInContext] and the git extension. *)

Module PollState.
Import EventLog.

(** [vscode.DiagnosticSeverity] is a numeric enum. *)
Definition severity_value (sev : DiagnosticSeverity) : Z :=
  match sev with
  | Error => 0
  | Warning => 1
  | Information => 2
  | Hint => 3
  end.

(** [vscode.Diagnostic], the fields that are read; [start_line] is
    [range.start.line]. *)
Record Diagnostic : Type := {
  severity : DiagnosticSeverity;
  message : string;
  start_line : Z;
  source : option string
}.

(** The object literal pushed for a diagnostic. *)
Definition info_of (uri : string) (d : Diagnostic) : DiagnosticInfo.t :=
  {| DiagnosticInfo.uri := uri;
     DiagnosticInfo.severity :=
       if (severity_value (severity d) =? severity_value Error)%Z
       then DiagnosticInfo.error
       else DiagnosticInfo.warning;
     DiagnosticInfo.message := message d;
     DiagnosticInfo.line := (start_line d + 1)%Z;
     DiagnosticInfo.source := default "unknown" (source d) |}.

(** The inner loop, over the diagnostics of one resource: [inr result]
    when it leaves through [return result], [inl result] when it runs to
    its end. *)
Fixpoint scan (maxDiagnostics : Z) (uri : string) (diags : list Diagnostic)
    (result : list DiagnosticInfo.t)
  : list DiagnosticInfo.t + list DiagnosticInfo.t :=
  match diags with
  | [] => inl result
  | d :: diags =>
      if (severity_value Warning <? severity_value (severity d))%Z
      then scan maxDiagnostics uri diags result
      else
        let result := result ++ [info_of uri d] in
        if (maxDiagnostics <=? Z.of_nat (length result))%Z then inr result
        else scan maxDiagnostics uri diags result
  end.

(** The outer loop. *)
Fixpoint scan_all (maxDiagnostics : Z)
    (allDiags : list (string * list Diagnostic))
    (result : list DiagnosticInfo.t) : list DiagnosticInfo.t :=
  match allDiags with
  | [] => result
  | (uri, diags) :: allDiags =>
      match scan maxDiagnostics uri diags result with
      | inl result => scan_all maxDiagnostics allDiags result
      | inr result => result
      end
  end.

Definition pollDiagnostics (maxDiagnostics : Z)
    (allDiags : list (string * list Diagnostic)) : list DiagnosticInfo.t :=
  scan_all maxDiagnostics allDiags [].

(** The git extension: a change of the index or of the working tree, the
    [HEAD] of a repository, a repository, and the extension itself.
    [activate] tells whether [activate()] resolves, and [getAPI] gives the
    repositories of [exports?.getAPI?.(1)], if that is an object. *)
Record Change : Type := {
  fsPath : string;
  status : Z
}.

Record Head : Type := {
  name : option string;
  ahead : option Z;
  behind : option Z
}.

Record Repository : Type := {
  HEAD : option Head;
  indexChanges : list Change;
  workingTreeChanges : list Change
}.

Record GitExtension : Type := {
  isActive : bool;
  activate : bool;
  getAPI : option (list Repository)
}.

Definition pollGitStatus (gitExtension : option GitExtension)
  : option GitStatus.t :=
  match gitExtension with
  | None => None
  | Some ext =>
      if (negb (isActive ext) && negb (activate ext))%bool then None
      else
        match getAPI ext with
        | None | Some [] => None
        | Some (repo :: _) =>
            let head := HEAD repo in
            Some {| GitStatus.branch := default "detached" (head ≫= name);
                    GitStatus.ahead := default 0%Z (head ≫= ahead);
                    GitStatus.behind := default 0%Z (head ≫= behind);
                    GitStatus.staged := fsPath <$> indexChanges repo;
                    GitStatus.modified := fsPath <$> workingTreeChanges repo;
                    GitStatus.untracked :=
                      fsPath <$> List.filter (λ c, (status c =? 7)%Z)
                                   (workingTreeChanges repo) |}
        end
  end.

(** *** Vocabulary *)

(** The errors and warnings among all diagnostics, in the order of the
    enumeration, as the objects [pollDiagnostics] makes of them. *)
Definition reportable (allDiags : list (string * list Diagnostic))
  : list DiagnosticInfo.t :=
  concat ((λ '(uri, diags),
             info_of uri <$>
               List.filter
                 (λ d, (severity_value (severity d) <=? severity_value Warning)%Z)
                 diags)
          <$> allDiags).

End PollState.

(** ** contextAssembly.ts: [assembleContext], [formatBundleForLLM] and
       [formatEvent] *)

Module ContextAssembly.
Import Types.

(** [vscode.window.activeTextEditor], the parts that are read:
    [selected_text] is [doc.getText(new vscode.Range(sel.start, sel.end))]. *)
Record TextEditor : Type := {
  document_uri : string;
  document_languageId : string;
  selection_isEmpty : bool;
  selection_start_line : Z;
  selection_end_line : Z;
  selected_text : string
}.

(** What [await pollState()] gives: the state [pollState()] resolves
    to, or the reason it rejects with ([Promise.all] rejects as soon as
    one of the polls throws or rejects). *)
Inductive poll : Type :=
| PollResolves (state : PolledState.t)
| PollRejects (reason : string).

(** What [assembleContext] gives: the bundle it resolves to, or what it
    rejects with, the exception thrown by [snapshot] or the rejection of
    [pollState()]. *)
Inductive assembly : Type :=
| Assembled (bundle : ContextBundle.t)
| SnapshotThrows
| PollStateRejects (reason : string).

(** [assembleContext(eventLog)].  [eventWindowSeconds] is the setting
    [ctxbridge.eventWindowSeconds] (60 when it is not set), [now] the
    value of [Date.now()] in [snapshot], [polled] what
    [await pollState()] gives, [editor] the active editor after that and
    [isoString] the value of [new Date().toISOString()].  Reading the
    settings, the editor and the clock is taken to return. *)
Definition assembleContext (eventWindowSeconds : option Z) (now : Z)
    (polled : poll) (editor : option TextEditor) (isoString : string)
    (eventLog : EventLog.t) : assembly :=
  let windowSec := default 60%Z eventWindowSeconds in
  match EventLog.snapshot (windowSec * 1000) now eventLog with
  | None => SnapshotThrows
  | Some events =>
      match polled with
      | PollRejects reason => PollStateRejects reason
      | PollResolves state =>
          let phase := PhaseDetection.detectPhase events in
          let selection :=
            match editor with
            | Some editor =>
                if negb (selection_isEmpty editor) then
                  Some {| Selection.uri := document_uri editor;
                          Selection.startLine :=
                            (selection_start_line editor + 1)%Z;
                          Selection.endLine :=
                            (selection_end_line editor + 1)%Z;
                          Selection.snippet := selected_text editor;
                          Selection.languageId := document_languageId editor |}
                else None
            | None => None
            end in
          Assembled {| ContextBundle.timestamp := isoString;
                       ContextBundle.eventLog := events;
                       ContextBundle.state := state;
                       ContextBundle.phase := phase;
                       ContextBundle.selection := selection |}
      end
  end.

Section Format.

(** How a double prints in a template literal ([Number::toString]); the
    integer fields of the bundle print in decimal. *)
Context (Number_toString : float → string).

Definition quote : string := String (ascii_of_nat 34) "".
Definition newline : string := String (ascii_of_nat 10) "".

(** [array.join(sep)] *)
Fixpoint join (sep : string) (items : list string) : string :=
  match items with
  | [] => ""
  | [item] => item
  | item :: items => item +:+ sep +:+ join sep items
  end.

(** [Math.round((now - event.timestamp) / 1000)] *)
Definition ago (event : ActivityEvent) (now : Z) : float :=
  Math.round ((Math.of_Z now - Math.of_Z (timestamp event)) / 1000)%float.

Definition formatEvent (event : ActivityEvent) (now : Z) : string :=
  let prefix := Number_toString (ago event now) +:+ "s ago" in
  match event with
  | FileSwitchEvent _ _ toUri _ =>
      prefix +:+ ": switched to " +:+ default "none" toUri
  | FileSaveEvent _ uri _ => prefix +:+ ": saved " +:+ uri
  | DebugStartEvent _ sessionName _ =>
      prefix +:+ ": started debug " +:+ quote +:+ sessionName +:+ quote
  | DebugStopEvent _ sessionName _ =>
      prefix +:+ ": ended debug " +:+ quote +:+ sessionName +:+ quote
  | DiagnosticChangeEvent _ _ totalErrors totalWarnings =>
      prefix +:+ ": diagnostics changed (" +:+ pretty totalErrors
      +:+ " errors, " +:+ pretty totalWarnings +:+ " warnings)"
  | TerminalCommandStartEvent _ commandLine _ =>
      prefix +:+ ": ran `" +:+ commandLine +:+ "`"
  | TerminalCommandEndEvent _ _ _ exitCode =>
      prefix +:+ ": command finished (exit "
      +:+ match exitCode with Some code => pretty code | None => "?" end
      +:+ ")"
  | TextChangeEvent _ uri _ => prefix +:+ ": edited " +:+ uri
  | BreakpointChangeEvent _ added removed _ =>
      prefix +:+ ": breakpoints changed (+" +:+ pretty added +:+ " -"
      +:+ pretty removed +:+ ")"
  end.

(** The parts pushed by each block of [formatBundleForLLM], in order. *)

Definition phase_header (bundle : ContextBundle.t) : list string :=
  [ "## Developer Context (" +:+ ContextBundle.timestamp bundle +:+ ")";
    "**Phase**: " +:+ ContextBundle.phase_tag (phase (ContextBundle.phase bundle))
    +:+ " ("
    +:+ Number_toString
          (Math.round (confidence (ContextBundle.phase bundle) * 100)%float)
    +:+ "% confidence)";
    "**Reasoning**: " +:+ reasoning (ContextBundle.phase bundle);
    "" ].

Definition current_editor (activeEditor : option EditorState.t) : list string :=
  match activeEditor with
  | Some ed =>
      [ "**Active file**: " +:+ EditorState.uri ed +:+ " ("
        +:+ EditorState.languageId ed +:+ ", line "
        +:+ pretty (EditorState.cursorLine ed) +:+ ", "
        +:+ pretty (EditorState.lineCount ed) +:+ " lines"
        +:+ (if EditorState.isDirty ed then ", unsaved" else "") +:+ ")" ]
  | None => []
  end.

Definition selection_block (selection : option Selection.t) : list string :=
  match selection with
  | Some s =>
      [ "**Selection**: " +:+ Selection.uri s +:+ ":"
        +:+ pretty (Selection.startLine s) +:+ "-"
        +:+ pretty (Selection.endLine s);
        "```" +:+ Selection.languageId s;
        Selection.snippet s;
        "```" ]
  | None => []
  end.

Definition has_severity (sev : DiagnosticInfo.severity_t)
    (d : DiagnosticInfo.t) : bool :=
  bool_decide (ContextBundle.severity_tag (DiagnosticInfo.severity d)
               = ContextBundle.severity_tag sev).

Definition diagnostic_line (label : string) (d : DiagnosticInfo.t) : string :=
  "  - " +:+ label +:+ " " +:+ DiagnosticInfo.uri d +:+ ":"
  +:+ pretty (DiagnosticInfo.line d) +:+ ": " +:+ DiagnosticInfo.message d
  +:+ " [" +:+ DiagnosticInfo.source d +:+ "]".

Definition diagnostics_block (diagnostics : list DiagnosticInfo.t)
  : list string :=
  let errors := List.filter (has_severity DiagnosticInfo.error) diagnostics in
  let warnings := List.filter (has_severity DiagnosticInfo.warning) diagnostics in
  if ((0 <? length errors) || (0 <? length warnings))%bool then
    [ "";
      "**Diagnostics**: " +:+ pretty (length errors) +:+ " errors, "
      +:+ pretty (length warnings) +:+ " warnings" ]
    ++ (diagnostic_line "ERROR" <$> take 10 errors)
    ++ (diagnostic_line "WARN" <$> take 5 warnings)
  else [].

Definition truthy (s : string) : bool := negb (bool_decide (s = "")).

Definition tab_line (tab : TabInfo.t) : string :=
  let markers :=
    join ", " (List.filter truthy
                 [ if TabInfo.isActive tab then "active" else "";
                   if TabInfo.isDirty tab then "unsaved" else "" ]) in
  "  - " +:+ TabInfo.uri tab
  +:+ (if truthy markers then " (" +:+ markers +:+ ")" else "").

Definition tabs_block (openTabs : list TabInfo.t) : list string :=
  if 0 <? length openTabs then
    [ ""; "**Open tabs** (" +:+ pretty (length openTabs) +:+ "):" ]
    ++ (tab_line <$> take 15 openTabs)
  else [].

Definition git_block (gitStatus : option GitStatus.t) : list string :=
  match gitStatus with
  | Some g =>
      [ "";
        "**Git**: branch `" +:+ GitStatus.branch g +:+ "` (ahead "
        +:+ pretty (GitStatus.ahead g) +:+ ", behind "
        +:+ pretty (GitStatus.behind g) +:+ ")" ]
      ++ (if 0 <? length (GitStatus.modified g)
          then [ "  Modified: " +:+ join ", " (GitStatus.modified g) ]
          else [])
      ++ (if 0 <? length (GitStatus.staged g)
          then [ "  Staged: " +:+ join ", " (GitStatus.staged g) ]
          else [])
  | None => []
  end.

Definition breakpoint_line (bp : BreakpointInfo.t) : string :=
  "  - " +:+ BreakpointInfo.uri bp +:+ ":" +:+ pretty (BreakpointInfo.line bp)
  +:+ match BreakpointInfo.condition bp with
      | Some condition =>
          if truthy condition then " if " +:+ condition else ""
      | None => ""
      end
  +:+ (if BreakpointInfo.enabled bp then "" else " (disabled)").

Definition breakpoints_block (breakpoints : list BreakpointInfo.t)
  : list string :=
  if 0 <? length breakpoints then
    [ ""; "**Breakpoints** (" +:+ pretty (length breakpoints) +:+ "):" ]
    ++ (breakpoint_line <$> take 10 breakpoints)
  else [].

Definition event_line (now : Z) (event : ActivityEvent) : string :=
  "  " +:+ formatEvent event now.

Definition event_narrative (eventLog : list ActivityEvent) (now : Z)
  : list string :=
  if 0 <? length eventLog then
    [ ""; "**Recent activity** (" +:+ pretty (length eventLog) +:+ " events):" ]
    ++ (event_line now <$> eventLog)
  else [].

(** The array [parts] at the end of [formatBundleForLLM]; [now] is the
    value of [Date.now()] in the event narrative. *)
Definition parts (bundle : ContextBundle.t) (now : Z) : list string :=
  let state := ContextBundle.state bundle in
  phase_header bundle
  ++ current_editor (PolledState.activeEditor state)
  ++ selection_block (ContextBundle.selection bundle)
  ++ diagnostics_block (PolledState.diagnostics state)
  ++ tabs_block (PolledState.openTabs state)
  ++ git_block (PolledState.gitStatus state)
  ++ breakpoints_block (PolledState.breakpoints state)
  ++ event_narrative (ContextBundle.eventLog bundle) now.

Definition formatBundleForLLM (bundle : ContextBundle.t) (now : Z) : string :=
  join newline (parts bundle now).

End Format.

End ContextAssembly.

(* ===================================================================== *)
(** * Part II: properties                                                 *)
(* ===================================================================== *)

(** ** The ring buffer *)

Section RingBufferFacts.
Import RingBuffer.
Context {T : Type}.
Implicit Types (rb : RingBuffer.t T) (xs : list T) (ops : list (op T)).
Local Arguments index_mod : simpl never.

Lemma mod_apart (C j n : nat) : j < n → n < j + C → j mod C ≠ n mod C.
Proof.
  intros Hjn Hn E.
  assert (C ≠ 0) by lia.
  pose proof (Nat.div_mod_eq j C). pose proof (Nat.div_mod_eq n C).
  rewrite E in *.
  assert (n - j = C * (n / C - j / C)) by nia.
  assert (n / C - j / C = 0 ∨ 1 ≤ n / C - j / C) as [?|?] by lia; nia.
Qed.

Lemma index_mod_pos (n C : nat) : 0 < C → index_mod (Idx n) C = Idx (n mod C).
Proof. destruct C; [lia | done]. Qed.

Lemma holds_new (C : nat) : 0 < C → holds (T:=T) C [] (new C).
Proof.
  intros HC. split; simpl; try done.
  - by rewrite length_replicate.
  - by rewrite Nat.Div0.mod_0_l.
  - intros j Hj. lia.
Qed.

Lemma holds_clear (C : nat) xs rb : 0 < C → holds C xs rb → holds C [] (clear rb).
Proof.
  intros HC [Hc _ _ _ _]. unfold clear. rewrite Hc. by apply holds_new.
Qed.

Lemma holds_push (C : nat) xs rb (x : T) :
  0 < C → holds C xs rb → holds C (xs ++ [x]) (push x rb).
Proof.
  intros HC [Hc Hl Hn Hh Hs].
  assert (length xs mod C < C) as Hlt by (apply Nat.mod_upper_bound; lia).
  split; unfold push; simpl; rewrite ?Hh, ?Hc, ?Hn, ?length_app; simpl.
  - done.
  - unfold array_set. rewrite Hl. rewrite decide_True by done.
    by rewrite length_insert.
  - case_decide; lia.
  - rewrite index_mod_pos by done.
    f_equal. rewrite Nat.Div0.add_mod_idemp_l. done.
  - intros j Hj Hj'. unfold array_set. rewrite Hl, decide_True by done.
    destruct (decide (j = length xs)) as [->|Hne].
    + rewrite list_lookup_insert_eq by lia.
      by rewrite lookup_app_r, Nat.sub_diag by lia.
    + rewrite list_lookup_insert_ne by (apply not_eq_sym, mod_apart; lia).
      rewrite lookup_app_l by lia. apply Hs; lia.
Qed.

Lemma holds_run (C : nat) ops : 0 < C → holds C (pushed ops) (run C ops).
Proof.
  intros HC. induction ops as [|o ops IH] using rev_ind.
  - by apply holds_new.
  - unfold run, pushed in *. rewrite !foldl_app. simpl.
    destruct o as [x|]; simpl.
    + by apply holds_push.
    + by eapply holds_clear.
Qed.

Lemma lookups_window xs (k m : nat) :
  k + m ≤ length xs →
  (λ i, xs !! (k + i)) <$> seq 0 m = Some <$> take m (drop k xs).
Proof.
  intros H. apply list_eq. intros i.
  rewrite !list_lookup_fmap.
  destruct (decide (i < m)) as [Hi|Hi].
  - rewrite lookup_seq_lt by done. simpl.
    rewrite lookup_take_lt by done. rewrite lookup_drop.
    destruct (lookup_lt_is_Some_2 xs (k + i)) as [y Hy]; [lia|].
    by rewrite Hy.
  - rewrite lookup_seq_ge by lia.
    rewrite lookup_take_ge by lia. done.
Qed.

Lemma holds_toArray (C : nat) xs rb :
  0 < C → holds C xs rb →
  toArray rb = Some <$> drop (length xs - C) xs.
Proof.
  intros HC [Hc Hl Hn Hh Hs]. unfold toArray.
  rewrite Hn, Hc, Hh.
  case_decide as H0.
  { assert (length xs = 0) as E by lia.
    apply length_zero_iff_nil in E. by subst. }
  case_decide as Hfull.
  - (* not yet full: slots 0 .. n-1 *)
    replace (length xs `min` C) with (length xs) by lia.
    replace (length xs - C) with 0 by lia. rewrite drop_0.
    transitivity ((λ i, xs !! (0 + i)) <$> seq 0 (length xs)).
    + apply list_eq. intros i. rewrite !list_lookup_fmap.
      destruct (decide (i < length xs)) as [Hi|Hi].
      * rewrite !lookup_seq_lt by done. simpl. f_equal.
        rewrite index_mod_pos by done. simpl.
        rewrite Hs by lia. done.
      * by rewrite !lookup_seq_ge by lia.
    + rewrite lookups_window by lia. by rewrite drop_0, firstn_all.
  - (* full: start at head *)
    replace (length xs `min` C) with C by lia.
    transitivity ((λ i, xs !! (length xs - C + i)) <$> seq 0 C).
    + apply list_eq. intros i. rewrite !list_lookup_fmap.
      destruct (decide (i < C)) as [Hi|Hi].
      * rewrite !lookup_seq_lt by done. simpl. f_equal.
        rewrite index_mod_pos by done. simpl.
        assert ((length xs mod C + i) mod C = (length xs - C + i) mod C) as ->.
        { rewrite Nat.Div0.add_mod_idemp_l.
          replace (length xs + i) with (length xs - C + i + 1 * C) by lia.
          by rewrite Nat.Div0.mod_add. }
        rewrite Hs by lia. done.
      * by rewrite !lookup_seq_ge by lia.
    + rewrite lookups_window by lia.
      rewrite take_ge; [done|]. rewrite length_drop. lia.
Qed.

(** With capacity 0 nothing is ever counted. *)
Lemma run_capacity_0 ops :
  count (run 0 ops) = 0 ∧ capacity (run 0 ops) = 0.
Proof.
  induction ops as [|o ops [IH1 IH2]] using rev_ind; [done|].
  unfold run in *. rewrite foldl_app. simpl.
  destruct o; simpl; rewrite ?IH1, ?IH2; done.
Qed.

Lemma run_capacity (C : nat) ops : capacity (run C ops) = C.
Proof.
  induction ops as [|o ops IH] using rev_ind; [done|].
  unfold run in *. rewrite foldl_app. simpl. by destruct o.
Qed.

Lemma run_count (C : nat) ops : count (run C ops) = length (pushed ops) `min` C.
Proof.
  destruct C as [|C'].
  - destruct (run_capacity_0 ops) as [-> _]. lia.
  - apply holds_count. apply holds_run. lia.
Qed.

(** What [toArray] returns in any reachable state, for any capacity. *)
Lemma run_toArray (C : nat) ops :
  toArray (run C ops)
  = Some <$> drop (length (pushed ops) - C) (pushed ops).
Proof.
  destruct C as [|C'].
  - unfold toArray. destruct (run_capacity_0 ops) as [-> _].
    rewrite decide_True by done.
    rewrite Nat.sub_0_r, drop_all. done.
  - apply holds_toArray; [lia|]. apply holds_run. lia.
Qed.

Lemma pushed_pushes xs : pushed (Push <$> xs) = xs.
Proof.
  induction xs as [|x xs IH] using rev_ind; [done|].
  unfold pushed in *. rewrite fmap_app, foldl_app. simpl. by rewrite IH.
Qed.

Lemma pushed_snoc ops (x : T) : pushed (ops ++ [Push x]) = pushed ops ++ [x].
Proof. unfold pushed. by rewrite foldl_app. Qed.

Lemma run_snoc (C : nat) ops (o : op T) : run C (ops ++ [o]) = apply_op (run C ops) o.
Proof. unfold run. by rewrite foldl_app. Qed.

(** C2. Pushing more than [C] items into a fresh buffer of capacity [C]
    leaves exactly the [C] most recently pushed items, in push order; in
    every reachable state the size is at most the capacity, and a push into
    a full buffer drops the oldest item and appends the new one. *)
Theorem ring_buffer_keeps_most_recent (C : nat) xs :
  C < length xs →
  length (toArray (pushes C xs)) = C
  ∧ toArray (pushes C xs) = Some <$> drop (length xs - C) xs
  ∧ (∀ ops, size (run C ops) ≤ maxSize (run C ops))
  ∧ (∀ ops x, size (run C ops) = maxSize (run C ops) →
       toArray (push x (run C ops)) = drop 1 (toArray (run C ops) ++ [Some x])
       ∧ (0 < C → ∃ oldest rest,
             toArray (run C ops) = oldest :: rest
             ∧ toArray (push x (run C ops)) = rest ++ [Some x])).
Proof.
  intros Hlen.
  assert (toArray (pushes C xs) = Some <$> drop (length xs - C) xs) as Harr.
  { unfold pushes. by rewrite run_toArray, pushed_pushes. }
  split; [|split; [done|split]].
  - rewrite Harr, length_fmap, length_drop. lia.
  - intros ops. unfold size, maxSize. rewrite run_count, run_capacity. lia.
  - intros ops x. unfold size, maxSize. rewrite run_count, run_capacity.
    intros Hfull.
    change (push x (run C ops)) with (apply_op (run C ops) (Push x)).
    rewrite <- run_snoc, !run_toArray, pushed_snoc, length_app. simpl.
    set (ys := pushed ops) in *.
    assert (drop (length ys + 1 - C) (ys ++ [x])
            = drop 1 (drop (length ys - C) ys ++ [x])) as E.
    { destruct (decide (C = 0)) as [->|HC].
      - rewrite !Nat.sub_0_r, drop_all.
        by rewrite drop_ge by (rewrite length_app; simpl; lia).
      - rewrite drop_app_le by lia.
        rewrite (drop_app_le _ [x] 1) by (rewrite length_drop; lia).
        rewrite drop_drop. do 2 f_equal. lia. }
    split.
    + rewrite E, fmap_drop, fmap_app. done.
    + intros HC.
      destruct (drop (length ys - C) ys) as [|y rest] eqn:Hd.
      { apply (f_equal length) in Hd. rewrite length_drop in Hd. simpl in Hd. lia. }
      exists (Some y), (Some <$> rest). split; [done|].
      rewrite E. simpl. rewrite ?drop_0, fmap_app. done.
Qed.

Section Since.
Context (timestamp : T → Z).

Lemma filter_since_items (cutoff : Z) xs :
  filter_since timestamp cutoff (Some <$> xs)
  = Some (filter (λ x, (cutoff ≤ timestamp x)%Z) xs).
Proof.
  induction xs as [|x xs IH]; [done|].
  rewrite fmap_cons. cbn [filter_since]. rewrite IH. cbn [mbind option_bind].
  rewrite filter_cons. by case_decide.
Qed.

Lemma filter_all (P : T → Prop) `{∀ x, Decision (P x)} xs :
  Forall P xs → filter P xs = xs.
Proof.
  induction 1 as [|x xs Hx _ IH]; [done|].
  by rewrite filter_cons, decide_True, IH.
Qed.

Lemma filter_none (P : T → Prop) `{∀ x, Decision (P x)} xs :
  Forall (λ x, ¬ P x) xs → filter P xs = [].
Proof.
  induction 1 as [|x xs Hx _ IH]; [done|].
  by rewrite filter_cons, decide_False, IH.
Qed.

Lemma nondecreasing_from (x : T) xs :
  nondecreasing timestamp (x :: xs) → Forall (λ y, (timestamp x ≤ timestamp y)%Z) xs.
Proof.
  intros Hs. apply Sorted_StronglySorted in Hs.
  - by inversion Hs.
  - intros a b c Hab Hbc. simpl in *. lia.
Qed.

Lemma filter_sorted_suffix (cutoff : Z) xs :
  nondecreasing timestamp xs →
  ∃ older, xs = older ++ filter (λ x, (cutoff ≤ timestamp x)%Z) xs
           ∧ Forall (λ x, (timestamp x < cutoff)%Z) older.
Proof.
  induction xs as [|x xs IH]; intros Hs.
  - by exists [].
  - rewrite filter_cons. case_decide as Hx.
    + exists []. split; [|done]. simpl. f_equal. symmetry.
      apply filter_all. eapply Forall_impl; [by apply nondecreasing_from|].
      simpl. intros y. lia.
    + destruct IH as (older & E & Hold); [by inversion Hs|].
      exists (x :: older). split.
      * simpl. by rewrite <- E.
      * constructor; [lia | done].
Qed.

(** C3 (as amended). In every reachable state [since(w, now)] returns, in
    order, exactly the items of [toArray()] whose timestamp is at least
    [now - w].  When the timestamps do not decrease in push order this is
    a suffix of [toArray()], all older items being below the cutoff, and it
    is the whole array as soon as the oldest item lies in the window.  When
    every item is below the cutoff the result is empty. *)
Theorem since_selects_window (C : nat) ops (w now : Z) :
  ∃ items,
    toArray (run C ops) = Some <$> items
    ∧ since timestamp w now (run C ops)
      = Some (filter (λ x, (now - w ≤ timestamp x)%Z) items)
    ∧ (nondecreasing timestamp items →
       ∃ older recent,
         since timestamp w now (run C ops) = Some recent
         ∧ items = older ++ recent
         ∧ Forall (λ x, (timestamp x < now - w)%Z) older
         ∧ Forall (λ x, (now - w ≤ timestamp x)%Z) recent)
    ∧ (nondecreasing timestamp items →
       (∀ oldest, items !! 0 = Some oldest → (now - w ≤ timestamp oldest)%Z) →
       since timestamp w now (run C ops) = Some items)
    ∧ (Forall (λ x, (timestamp x < now - w)%Z) items →
       since timestamp w now (run C ops) = Some []).
Proof.
  exists (drop (length (pushed ops) - C) (pushed ops)).
  set (items := drop _ _).
  assert (since timestamp w now (run C ops)
          = Some (filter (λ x, (now - w ≤ timestamp x)%Z) items)) as Hsince.
  { unfold since. rewrite run_toArray. apply filter_since_items. }
  split; [apply run_toArray|]. split; [done|].
  rewrite Hsince. split; [|split].
  - intros Hs. destruct (filter_sorted_suffix (now - w) items Hs) as (older & E & Hold).
    exists older, (filter (λ x, (now - w ≤ timestamp x)%Z) items).
    split; [done|]. split; [done|]. split; [done|].
    apply Forall_forall. intros x Hx. by apply list_elem_of_filter in Hx as [? _].
  - intros Hs Hhead. f_equal. apply filter_all.
    destruct items as [|x rest]; [done|].
    constructor; [by apply Hhead|].
    eapply Forall_impl; [by apply nondecreasing_from|].
    simpl. intros y Hy. specialize (Hhead x eq_refl). lia.
  - intros Hall. f_equal. apply filter_none.
    eapply Forall_impl; [done|]. simpl. intros x. lia.
Qed.

End Since.

End RingBufferFacts.

(** C3 (as stated) fails when timestamps are not monotone: after pushing
    items stamped 5, 1, 5 into a buffer of capacity 3, [since(2, 5)] keeps
    the two items stamped 5, which do not form a suffix of [toArray()]. *)
Lemma since_suffix_counterexample :
  let rb := RingBuffer.pushes 3 [(5, "a"); (1, "b"); (5, "c")]%Z in
  RingBuffer.toArray rb = [Some (5, "a"); Some (1, "b"); Some (5, "c")]%Z
  ∧ RingBuffer.since fst 2 5 rb = Some [(5, "a"); (5, "c")]%Z
  ∧ ¬ ∃ older, [(5, "a"); (1, "b"); (5, "c")]%Z = older ++ [(5, "a"); (5, "c")]%Z.
Proof.
  split; [reflexivity|]. split; [reflexivity|].
  intros [older E].
  apply (f_equal (@length _)) in E as Hl. rewrite length_app in Hl. simpl in Hl.
  destruct older as [|y [|z older]]; simpl in *; try lia.
  discriminate.
Qed.

Lemma since_selects_window_witness :
  RingBuffer.nondecreasing fst
    [(5000, "old"); (8000, "recent"); (9500, "very-recent")]%Z
  ∧ RingBuffer.since fst 3000 10000
      (RingBuffer.pushes 10
         [(5000, "old"); (8000, "recent"); (9500, "very-recent")]%Z)
    = Some [(8000, "recent"); (9500, "very-recent")]%Z.
Proof.
  split; [repeat constructor; simpl; lia|].
  destruct (since_selects_window fst 10
              (RingBuffer.Push <$>
                 [(5000, "old"); (8000, "recent"); (9500, "very-recent")]%Z)
              3000 10000) as (items & Harr & Hsince & _).
  destruct items as [|i1 [|i2 [|i3 [|i4 items]]]]; try discriminate Harr.
  injection Harr as <- <- <-. exact Hsince.
Defined.

Lemma ring_buffer_keeps_most_recent_witness :
  2 < length [1; 2; 3]
  ∧ RingBuffer.toArray (RingBuffer.pushes 2 [1; 2; 3]) = [Some 2; Some 3].
Proof.
  split; [simpl; lia|].
  apply (ring_buffer_keeps_most_recent 2 [1; 2; 3]). simpl; lia.
Defined.

(** ** [Math.round] and [Math.min] on sample doubles *)

Example round_samples :
  Math.round 0.5 = 1%float ∧ Math.round 2.5 = 3%float
  ∧ Math.round (-2.5) = (-2)%float ∧ Math.round (-0.5) = neg_zero
  ∧ Math.round 1.25 = 1%float ∧ Math.round 60 = 60%float
  ∧ Math.round 0x1.fffffffffffffp-2 = 0%float
  ∧ Math.round infinity = infinity.
Proof. vm_compute. repeat split. Qed.

Example min_samples :
  Math.min 1 1.5 = 1%float ∧ Math.min 1 0.25 = 0.25%float
  ∧ Math.min 0 neg_zero = neg_zero ∧ Math.min neg_zero 0 = neg_zero
  ∧ Math.min 1 infinity = 1%float.
Proof. vm_compute. repeat split. Qed.

(** ** The classifier on the inputs of its unit tests *)

Section PhaseDetectionTests.
Import Types PhaseDetection.

Example detects_exploring :
  let r := detectPhase
    [FileSwitchEvent 0 None (Some "a.ts") (Some "ts");
     FileSwitchEvent 0 (Some "a.ts") (Some "b.ts") (Some "ts");
     FileSwitchEvent 0 (Some "b.ts") (Some "c.ts") (Some "ts");
     FileSwitchEvent 0 (Some "c.ts") (Some "d.ts") (Some "ts");
     FileSwitchEvent 0 (Some "d.ts") (Some "e.ts") (Some "ts")] in
  phase r = exploring ∧ confidence r = 1%float
  ∧ reasoning r = "Navigated across 5 files with 5 switches and minimal edits (0)"
  ∧ recentFiles r = ["a.ts"; "b.ts"; "c.ts"; "d.ts"; "e.ts"].
Proof. vm_compute. done. Qed.

Example detects_iterating :
  let r := detectPhase
    [TextChangeEvent 0 "a.ts" 5; TextChangeEvent 0 "a.ts" 3;
     FileSaveEvent 0 "a.ts" "typescript";
     TerminalCommandStartEvent 0 "npm test" "bash"] in
  phase r = iterating ∧ confidence r = 1%float.
Proof. vm_compute. done. Qed.

Example detects_building :
  phase (detectPhase
    [TextChangeEvent 0 "a.ts" 5; TextChangeEvent 0 "a.ts" 3;
     TextChangeEvent 0 "a.ts" 2; FileSaveEvent 0 "a.ts" "typescript";
     FileSaveEvent 0 "a.ts" "typescript"]) = building.
Proof. vm_compute. done. Qed.

Example detects_debugging :
  phase (detectPhase
    [DebugStartEvent 0 "Launch" "node"; BreakpointChangeEvent 0 2 0 0;
     FileSwitchEvent 0 (Some "a.ts") (Some "b.ts") (Some "ts")]) = debugging.
Proof. vm_compute. done. Qed.

Example detects_archaeology :
  let r := detectPhase
    [TerminalCommandStartEvent 0 "git log --oneline" "bash";
     FileSwitchEvent 0 (Some "a.ts") (Some "b.ts") (Some "ts");
     FileSwitchEvent 0 (Some "b.ts") (Some "c.ts") (Some "ts");
     FileSwitchEvent 0 (Some "c.ts") (Some "d.ts") (Some "ts")] in
  phase r = archaeology
  ∧ reasoning r = "Browsing git history and navigating 4 files without edits".
Proof. vm_compute. done. Qed.

Example regex_samples :
  Regex.test Regex.test_command "jest --watch" = true
  ∧ Regex.test Regex.test_command "pytest tests/" = true
  ∧ Regex.test Regex.test_command "NPM  run   Test" = true
  ∧ Regex.test Regex.test_command "cat latest.txt" = false
  ∧ Regex.test Regex.test_command "run test_all" = false
  ∧ Regex.test Regex.git_history_command "git blame src/main.ts" = true
  ∧ Regex.test Regex.git_history_command "git diff HEAD~3" = true
  ∧ Regex.test Regex.git_history_command "git status" = false
  ∧ Regex.test Regex.git_history_command "legit log" = false.
Proof. vm_compute. done. Qed.

End PhaseDetectionTests.

(** ** The classifier *)

Section PhaseDetectionFacts.
Import Types PhaseDetection.
Implicit Types (events : list ActivityEvent) (s : list string).

(** *** Scores and the winner loop *)

Lemma scores_bounds events (q : WorkflowPhase) :
  (0 ≤ score (scores events) q ≤ 7)%Z.
Proof.
  unfold scores, when. destruct q; cbn [score s_exploring s_iterating
    s_building s_debugging s_archaeology s_unknown];
    repeat case_match; lia.
Qed.

Ltac split_comparisons :=
  repeat match goal with
  | |- context [(?x <? ?y)%Z] =>
      first [is_var x | constr_eq x 0%Z];
      destruct (Z.ltb_spec x y); cbn [fst snd]
  end.

(** The loop returns a phase of greatest score, the first in evaluation
    order among those of that score, provided that score is positive;
    otherwise it keeps [unknown] and 0. *)
Lemma winner_spec (sc : Scores) (p : WorkflowPhase) (b : Z) :
  s_unknown sc = 0%Z →
  winner sc = (p, b) →
  score sc p = b
  ∧ (∀ q, (score sc q ≤ b)%Z)
  ∧ (p = unknown ∧ b = 0%Z
     ∨ (0 < b)%Z ∧ ∀ q, score sc q = b → rank p ≤ rank q).
Proof.
  destruct sc as [a1 a2 a3 a4 a5 a6]. cbn [s_unknown]. intros ->.
  unfold winner, entries, better.
  cbn [foldl s_exploring s_iterating s_building s_debugging s_archaeology
       s_unknown fst snd].
  split_comparisons; intros [= <- <-]; simpl;
    (split; [reflexivity|]);
    (split; [intros q; destruct q; simpl; lia|]);
    first [ left; split; [reflexivity | lia]
          | right; split; [lia|];
            intros q; destruct q; simpl; lia ].
Qed.

Lemma winner_scores events (p : WorkflowPhase) (b : Z) :
  winner (scores events) = (p, b) →
  score (scores events) p = b
  ∧ (0 ≤ b ≤ 7)%Z
  ∧ (∀ q, (score (scores events) q ≤ b)%Z)
  ∧ (p = unknown ∧ b = 0%Z
     ∨ (0 < b)%Z ∧ p ≠ unknown
       ∧ ∀ q, score (scores events) q = b → rank p ≤ rank q).
Proof.
  intros Hw.
  destruct (winner_spec (scores events) p b eq_refl Hw) as (Hp & Hmax & Hcase).
  split; [done|]. split; [rewrite <- Hp; apply scores_bounds|].
  split; [done|].
  destruct Hcase as [?|[Hpos Hfirst]]; [by left|right].
  split; [done|]. split; [|done].
  intros ->. cbn in Hp. lia.
Qed.

Lemma detectPhase_short events :
  length events < 3 →
  detectPhase events
  = {| phase := unknown; confidence := 0; reasoning := "Insufficient activity";
       recentFiles := [] |}.
Proof.
  intros H. unfold detectPhase.
  destruct (Nat.ltb_spec (length events) 3); [done | lia].
Qed.

Lemma detectPhase_long events :
  3 ≤ length events →
  detectPhase events
  = {| phase := (winner (scores events)).1;
       confidence := confidence_of (winner (scores events)).2;
       reasoning := generateReasoning (winner (scores events)).1 events
                      (uniqueFiles events);
       recentFiles := take 5 (uniqueFiles events) |}.
Proof.
  intros H. unfold detectPhase.
  destruct (Nat.ltb_spec (length events) 3); [lia|].
  by destruct (winner (scores events)).
Qed.

(** C5. With at least three events the phase returned has the greatest
    score; among phases of that score it is the earliest in the order
    exploring, iterating, building, debugging, archaeology, so every
    phase before it scores strictly less; and when all scores are 0 the
    phase is unknown. *)
Theorem winner_is_first_maximum events :
  3 ≤ length events →
  let sc := score (scores events) in
  let p := phase (detectPhase events) in
  ((∀ q, sc q = 0%Z) → p = unknown)
  ∧ ((∃ q, (0 < sc q)%Z) →
     p ≠ unknown
     ∧ (∀ q, (sc q ≤ sc p)%Z)
     ∧ (∀ q, sc q = sc p → rank p ≤ rank q)
     ∧ (∀ q, rank q < rank p → (sc q < sc p)%Z)).
Proof.
  intros Hlen sc p. subst sc p. rewrite detectPhase_long by done.
  cbn [phase].
  destruct (winner (scores events)) as [p b] eqn:Hw. cbn [fst].
  destruct (winner_scores _ _ _ Hw) as (Hp & Hb & Hmax & Hcase).
  split.
  - intros Hzero. destruct Hcase as [[-> _]|(Hpos & _)]; [done|].
    rewrite <- Hp, Hzero in Hpos. lia.
  - intros [q Hq]. destruct Hcase as [[_ ->]|(Hpos & Hne & Hfirst)].
    { specialize (Hmax q). lia. }
    rewrite Hp. split; [done|]. split; [done|]. split; [done|].
    intros q' Hrank. specialize (Hmax q').
    destruct (decide (score (scores events) q' = b)) as [E|]; [|lia].
    specialize (Hfirst q' E). lia.
Qed.

Lemma winner_is_first_maximum_witness :
  3 ≤ length [DebugStartEvent 0 "Launch" "node"; BreakpointChangeEvent 0 2 0 0;
              FileSwitchEvent 0 (Some "a.ts") (Some "b.ts") (Some "ts")]
  ∧ ∀ q, (score (scores
            [DebugStartEvent 0 "Launch" "node"; BreakpointChangeEvent 0 2 0 0;
             FileSwitchEvent 0 (Some "a.ts") (Some "b.ts") (Some "ts")]) q
          ≤ score (scores
            [DebugStartEvent 0 "Launch" "node"; BreakpointChangeEvent 0 2 0 0;
             FileSwitchEvent 0 (Some "a.ts") (Some "b.ts") (Some "ts")])
              debugging)%Z.
Proof.
  split; [simpl; lia|].
  refine (proj1 (proj2 (proj2 (winner_is_first_maximum
    [DebugStartEvent 0 "Launch" "node"; BreakpointChangeEvent 0 2 0 0;
     FileSwitchEvent 0 (Some "a.ts") (Some "b.ts") (Some "ts")] _) _))).
  - simpl; lia.
  - exists debugging. vm_compute. reflexivity.
Defined.

(** *** Confidence *)

Lemma confidence_of_spec (b : Z) :
  (0 ≤ b ≤ 7)%Z →
  (∃ v, Math.value (confidence_of b) = Some v
        ∧ (Qabs (v - spec_confidence b) <= 1 # 18014398509481984)%Q)
  ∧ confidence_of b = Math.min 1 (Math.of_Z b / 5)
  ∧ (0 <=? confidence_of b)%float = true
  ∧ (confidence_of b <=? 1)%float = true.
Proof.
  intros Hb.
  assert (b = 0 ∨ b = 1 ∨ b = 2 ∨ b = 3 ∨ b = 4 ∨ b = 5 ∨ b = 6 ∨ b = 7)%Z
    as [->|[->|[->|[->|[->|[->|[->| ->]]]]]]] by lia;
    (split; [eexists; split; [vm_compute; reflexivity|];
             apply Qle_bool_imp_le; vm_compute; reflexivity
            | repeat split; vm_compute; reflexivity]).
Qed.

(** C6. With at least three events the confidence is the double that
    stands for [min(1, bestScore/5)] rounded to two decimal places: its
    exact value differs from that rational by at most 2^-54, the
    representation error of a double in [0,1], and the rounding leaves the
    double [Math.min(1, bestScore / 5)] as it is.  With fewer than three
    events, where no score is computed, it is 0.  On every input it lies
    in [0,1]. *)
Theorem confidence_is_rounded_ratio events :
  let r := detectPhase events in
  let bestScore := (winner (scores events)).2 in
  (3 ≤ length events →
     (∃ v, Math.value (confidence r) = Some v
           ∧ (Qabs (v - spec_confidence bestScore)
              <= 1 # 18014398509481984)%Q)
     ∧ confidence r = Math.min 1 (Math.of_Z bestScore / 5))
  ∧ (length events < 3 → confidence r = 0%float)
  ∧ (0 <=? confidence r)%float = true
  ∧ (confidence r <=? 1)%float = true.
Proof.
  intros r bestScore. subst r bestScore.
  destruct (decide (length events < 3)) as [Hshort|Hlong].
  - rewrite detectPhase_short by done. cbn [confidence].
    split; [lia|]. split; [done|]. split; vm_compute; reflexivity.
  - rewrite detectPhase_long by lia. cbn [confidence].
    destruct (winner (scores events)) as [p b] eqn:Hw. cbn [snd].
    destruct (winner_scores _ _ _ Hw) as (_ & Hb & _).
    destruct (confidence_of_spec b Hb) as (Hv & Hmin & H0 & H1).
    split; [done|]. split; [lia|]. done.
Qed.

Lemma confidence_is_rounded_ratio_witness :
  3 ≤ length [DebugStartEvent 0 "Launch" "node"; BreakpointChangeEvent 0 5 0 0;
              BreakpointChangeEvent 0 2 1 0]
  ∧ confidence (detectPhase
      [DebugStartEvent 0 "Launch" "node"; BreakpointChangeEvent 0 5 0 0;
       BreakpointChangeEvent 0 2 1 0])
    = Math.min 1 (Math.of_Z 7 / 5).
Proof.
  split; [simpl; lia|].
  refine (proj2 (proj1 (confidence_is_rounded_ratio
    [DebugStartEvent 0 "Launch" "node"; BreakpointChangeEvent 0 5 0 0;
     BreakpointChangeEvent 0 2 1 0]) _)).
  simpl; lia.
Defined.

(** C10. Whenever the phase returned is unknown, the confidence is
    exactly 0, on the early return as well as after the scoring. *)
Theorem unknown_has_zero_confidence events :
  phase (detectPhase events) = unknown →
  confidence (detectPhase events) = 0%float.
Proof.
  destruct (decide (length events < 3)) as [Hshort|Hlong].
  - by rewrite detectPhase_short.
  - rewrite detectPhase_long by lia. cbn [phase confidence].
    destruct (winner (scores events)) as [p b] eqn:Hw. cbn [fst snd].
    intros ->.
    destruct (winner_scores _ _ _ Hw) as (_ & _ & _ & [[_ ->]|(_ & Hne & _)]);
      [|done].
    vm_compute. reflexivity.
Qed.

Lemma unknown_has_zero_confidence_witness :
  phase (detectPhase [FileSaveEvent 0 "a.ts" "ts"; FileSaveEvent 1 "a.ts" "ts";
                      FileSaveEvent 2 "a.ts" "ts"]) = unknown
  ∧ confidence (detectPhase [FileSaveEvent 0 "a.ts" "ts";
                             FileSaveEvent 1 "a.ts" "ts";
                             FileSaveEvent 2 "a.ts" "ts"]) = 0%float.
Proof.
  split; [vm_compute; reflexivity|].
  apply (unknown_has_zero_confidence
           [FileSaveEvent 0 "a.ts" "ts"; FileSaveEvent 1 "a.ts" "ts";
            FileSaveEvent 2 "a.ts" "ts"]).
  vm_compute; reflexivity.
Defined.

(** *** Debugging needs a debug start or a breakpoint change *)

Lemma of_kind_absent (k : EventKind) events :
  Forall (λ e, kind e ≠ k) events → of_kind k events = [].
Proof.
  induction 1 as [|e events He _ IH]; [done|].
  unfold of_kind in *. cbn [List.filter]. rewrite IH.
  by rewrite bool_decide_eq_false_2.
Qed.

(** C8. A window without [debug_start] and without [breakpoint_change],
    whatever else it holds ([debug_stop], switches, edits, ...), is never
    classified as debugging. *)
Theorem no_debugging_without_start events :
  Forall (λ e, kind e ≠ debug_start ∧ kind e ≠ breakpoint_change) events →
  phase (detectPhase events) ≠ debugging.
Proof.
  intros Hno.
  destruct (decide (length events < 3)) as [Hshort|Hlong].
  { by rewrite detectPhase_short. }
  rewrite detectPhase_long by lia. cbn [phase].
  destruct (winner (scores events)) as [p b] eqn:Hw. cbn [fst].
  intros ->.
  destruct (winner_scores _ _ _ Hw) as (Hp & _ & _ & [[? _]|(Hpos & _)]);
    [done|].
  assert (score (scores events) debugging = 0%Z) as Hzero; [|lia].
  unfold scores. cbn [score s_debugging].
  rewrite (of_kind_absent debug_start), (of_kind_absent breakpoint_change)
    by (eapply Forall_impl; [exact Hno|]; intros ? [? ?]; done).
  unfold when, len. cbn [length]. change (Z.of_nat 0) with 0%Z.
  change (1 <=? 0)%Z with false.
  destruct (Z.ltb_spec (Z.of_nat (length (of_kind debug_stop events))) 0); lia.
Qed.

Lemma no_debugging_without_start_witness :
  Forall (λ e, kind e ≠ debug_start ∧ kind e ≠ breakpoint_change)
    [DebugStopEvent 0 "Launch" "node";
     FileSwitchEvent 0 (Some "a.ts") (Some "b.ts") (Some "ts");
     TextChangeEvent 0 "b.ts" 1]
  ∧ phase (detectPhase
      [DebugStopEvent 0 "Launch" "node";
       FileSwitchEvent 0 (Some "a.ts") (Some "b.ts") (Some "ts");
       TextChangeEvent 0 "b.ts" 1]) ≠ debugging.
Proof.
  split.
  - repeat constructor; discriminate.
  - apply (no_debugging_without_start
      [DebugStopEvent 0 "Launch" "node";
       FileSwitchEvent 0 (Some "a.ts") (Some "b.ts") (Some "ts");
       TextChangeEvent 0 "b.ts" 1]).
    repeat constructor; discriminate.
Defined.

(** *** Recent files *)

Local Abbreviation adds := (foldl (λ s x, set_add x s)).

Lemma filter_not_in_snoc s (x : string) (d : list string) :
  filter (λ y, y ∉ s ++ [x]) d = filter (λ y, y ∉ s) (filter (λ y, y ≠ x) d).
Proof.
  rewrite list_filter_filter. apply list_filter_iff. intros y.
  rewrite elem_of_app, list_elem_of_singleton. tauto.
Qed.

Lemma filter_not_in_member s (x : string) (d : list string) :
  x ∈ s → filter (λ y, y ∉ s) (filter (λ y, y ≠ x) d) = filter (λ y, y ∉ s) d.
Proof.
  intros Hx. apply list_filter_filter_l. intros y Hy ->. done.
Qed.

(** Adding the members of [l] one by one appends to [s] the members new
    to it, each at its first occurrence. *)
Lemma adds_distinct s (l : list string) :
  adds s l = s ++ filter (λ y, y ∉ s) (distinct l).
Proof.
  revert s. induction l as [|x l IH]; intros s.
  - cbn. by rewrite app_nil_r.
  - cbn [foldl distinct]. rewrite IH. unfold set_add.
    rewrite filter_cons. case_bool_decide as Hx.
    + rewrite decide_False by (intros Hn; by apply Hn).
      by rewrite filter_not_in_member.
    + rewrite decide_True by done.
      rewrite filter_not_in_snoc, <- app_assoc. done.
Qed.

Lemma adds_from_empty (l : list string) : adds [] l = distinct l.
Proof.
  rewrite adds_distinct. cbn.
  induction (distinct l) as [|x d IH]; [done|].
  rewrite filter_cons, decide_True by apply not_elem_of_nil. by rewrite IH.
Qed.

Lemma add_if_truthy_adds (uri : option string) s :
  add_if_truthy uri s = adds s (nonempty uri).
Proof. destruct uri as [u|]; [|done]. cbn. by case_bool_decide. Qed.

Lemma switches_adds events s :
  foldl add_switch s (of_kind file_switch events)
  = adds s (concat (switch_ids <$> events)).
Proof.
  revert s. induction events as [|e events IH]; intros s; [done|].
  rewrite fmap_cons. cbn [concat]. rewrite foldl_app, <- IH.
  unfold of_kind. cbn [List.filter].
  destruct e; cbn [kind switch_ids foldl]; try done.
  rewrite bool_decide_eq_true_2 by done. cbn [foldl add_switch].
  by rewrite foldl_app, !add_if_truthy_adds.
Qed.

Lemma changes_adds events s :
  foldl add_change s (of_kind text_change events)
  = adds s (concat (change_ids <$> events)).
Proof.
  revert s. induction events as [|e events IH]; intros s; [done|].
  rewrite fmap_cons. cbn [concat]. rewrite foldl_app, <- IH.
  unfold of_kind. cbn [List.filter].
  destruct e; cbn [kind change_ids foldl]; try done.
Qed.

Lemma uniqueFiles_distinct events :
  uniqueFiles events
  = distinct (concat (switch_ids <$> events) ++ concat (change_ids <$> events)).
Proof.
  unfold uniqueFiles.
  by rewrite switches_adds, changes_adds, <- foldl_app, adds_from_empty.
Qed.

Lemma distinct_NoDup (l : list string) : NoDup (distinct l).
Proof.
  induction l as [|x l IH]; [constructor|].
  cbn. apply NoDup_cons. split.
  - rewrite list_elem_of_filter. by intros [? _].
  - by apply NoDup_filter.
Qed.

Lemma distinct_elem_of (l : list string) (x : string) : x ∈ distinct l ↔ x ∈ l.
Proof.
  induction l as [|y l IH]; [done|].
  cbn. rewrite !elem_of_cons, list_elem_of_filter, IH.
  destruct (decide (x = y)); tauto.
Qed.

Lemma elem_of_concat_fmap (f : ActivityEvent → list string) events (x : string) :
  x ∈ concat (f <$> events) → ∃ e, e ∈ events ∧ x ∈ f e.
Proof.
  induction events as [|e events IH]; cbn.
  - by intros ?%elem_of_nil.
  - intros [Hx|Hx]%elem_of_app.
    + exists e. split; [apply list_elem_of_here | done].
    + destruct (IH Hx) as (e' & He' & Hxe').
      exists e'. split; [by apply list_elem_of_further | done].
Qed.

(** C4 (as amended). With at least three events, [recentFiles] lists the
    distinct resource ids of the window in a two-pass order: first the
    endpoints of the [file_switch] events (origin before destination,
    [null] and empty ids skipped), then the ids of the [text_change]
    events, each id at its first occurrence in that order; at most five
    are kept. *)
Theorem recentFiles_two_pass_order events :
  3 ≤ length events →
  recentFiles (detectPhase events)
  = take 5 (distinct (concat (switch_ids <$> events)
                      ++ concat (change_ids <$> events)))
  ∧ NoDup (recentFiles (detectPhase events))
  ∧ length (recentFiles (detectPhase events)) ≤ 5
  ∧ (∀ x, x ∈ recentFiles (detectPhase events) →
       ∃ e, e ∈ events ∧ (x ∈ switch_ids e ∨ x ∈ change_ids e)).
Proof.
  intros Hlen. rewrite detectPhase_long by done. cbn [recentFiles].
  rewrite uniqueFiles_distinct.
  set (ids := concat _ ++ concat _).
  split; [done|]. split; [|split].
  - pose proof (distinct_NoDup ids) as Hnd.
    rewrite <- (take_drop 5 (distinct ids)) in Hnd.
    by apply NoDup_app in Hnd as [? _].
  - rewrite length_take. lia.
  - intros x Hx. apply elem_of_take in Hx as (i & Hx' & _).
    apply list_elem_of_lookup_2 in Hx'. rewrite distinct_elem_of in Hx'.
    subst ids.
    apply elem_of_app in Hx' as [Hin|Hin];
      apply elem_of_concat_fmap in Hin as (e & He & Hxe);
      exists e; split; auto.
Qed.

Lemma recentFiles_two_pass_order_witness :
  3 ≤ length [TextChangeEvent 0 "a.ts" 1;
              FileSwitchEvent 1 (Some "b.ts") (Some "c.ts") (Some "ts");
              FileSaveEvent 2 "c.ts" "ts"]
  ∧ recentFiles (detectPhase
      [TextChangeEvent 0 "a.ts" 1;
       FileSwitchEvent 1 (Some "b.ts") (Some "c.ts") (Some "ts");
       FileSaveEvent 2 "c.ts" "ts"])
    = take 5 (distinct (["b.ts"; "c.ts"] ++ ["a.ts"])).
Proof.
  split; [simpl; lia|].
  apply (recentFiles_two_pass_order
      [TextChangeEvent 0 "a.ts" 1;
       FileSwitchEvent 1 (Some "b.ts") (Some "c.ts") (Some "ts");
       FileSaveEvent 2 "c.ts" "ts"]).
  simpl; lia.
Defined.

(** C4 (as stated) fails: an edit of a.ts followed by a switch from b.ts
    to c.ts is reported as b.ts, c.ts, a.ts, whereas a.ts occurs first in
    the window. *)
Lemma recentFiles_first_seen_counterexample :
  let events := [TextChangeEvent 0 "a.ts" 1;
                 FileSwitchEvent 1 (Some "b.ts") (Some "c.ts") (Some "ts");
                 FileSaveEvent 2 "c.ts" "ts"] in
  3 ≤ length events
  ∧ recentFiles (detectPhase events) = ["b.ts"; "c.ts"; "a.ts"]
  ∧ spec_recentFiles events = ["a.ts"; "b.ts"; "c.ts"]
  ∧ recentFiles (detectPhase events) ≠ spec_recentFiles events.
Proof. vm_compute. repeat split; done. Qed.

End PhaseDetectionFacts.

(** ** The event log: debounced text changes *)

Section EventLogFacts.
Import Types EventLog.
Implicit Types (log : EventLog.t) (burst : list (Z * nat)).

(** A timer that is not pending, or not yet due, does not run. *)
Lemma timer_waits (now : Z) (uri : string) log :
  (∀ tm, textChangeTimers log !! uri = Some tm → (now < due tm)%Z) →
  handle now (TimerFires uri) log = log.
Proof.
  intros Hwait. cbn [handle].
  destruct (textChangeTimers log !! uri) as [tm|] eqn:Htm; [|done].
  specialize (Hwait tm eq_refl).
  by rewrite bool_decide_eq_false_2 by lia.
Qed.

(** A further notification replaces the pending timer and its count. *)
Lemma change_replaces (at_ now : Z) (uri : string) (n m : nat) log :
  0 < n → 0 < m →
  handle now (DidChangeTextDocument uri m)
    (handle at_ (DidChangeTextDocument uri n) log)
  = handle now (DidChangeTextDocument uri m) log.
Proof.
  intros Hn Hm. cbn [handle].
  rewrite !bool_decide_eq_false_2 by lia.
  cbn [buffer lastActiveUri textChangeTimers].
  by rewrite insert_insert_eq.
Qed.

Lemma change_pending (at_ : Z) (uri : string) (n : nat) log :
  0 < n →
  textChangeTimers (handle at_ (DidChangeTextDocument uri n) log) !! uri
  = Some {| due := (at_ + TEXT_CHANGE_DEBOUNCE_MS)%Z; captured_uri := uri;
            captured_changeCount := Z.of_nat n |}.
Proof.
  intros Hn. cbn [handle]. rewrite bool_decide_eq_false_2 by lia.
  cbn [textChangeTimers]. by rewrite lookup_insert_eq.
Qed.

(** During a burst the state is the one the latest notification alone
    would have produced. *)
Lemma burst_collapses (uri : string) burst :
  ∀ (at_ : Z) (n : nat) log,
    0 < n → debounced at_ burst →
    run (burst_trace uri burst) (handle at_ (DidChangeTextDocument uri n) log)
    = handle (default (at_, n) (last burst)).1
             (DidChangeTextDocument uri (default (at_, n) (last burst)).2) log.
Proof.
  induction burst as [|[t m] burst IH]; intros at_ n log Hn Hb; [done|].
  destruct Hb as (Hle & Hlt & Hm & Hb).
  unfold burst_trace, run in *. rewrite fmap_cons. cbn [concat app foldl].
  rewrite timer_waits.
  2:{ intros tm. rewrite change_pending by done. intros [= <-]. cbn. lia. }
  rewrite change_replaces by done.
  rewrite IH by done.
  rewrite last_cons. by destruct (last burst) as [[??]|].
Qed.

(** The timer of the latest notification, run once it is due, records that
    notification's count and disappears. *)
Lemma fire_after_change (at_ fired : Z) (uri : string) (n : nat) log :
  0 < n → textChangeTimers log !! uri = None →
  (at_ + TEXT_CHANGE_DEBOUNCE_MS ≤ fired)%Z →
  handle fired (TimerFires uri) (handle at_ (DidChangeTextDocument uri n) log)
  = record (TextChangeEvent fired uri (Z.of_nat n)) log.
Proof.
  intros Hn Hnone Hdue.
  cbn [handle]. rewrite bool_decide_eq_false_2 by lia.
  cbn [textChangeTimers buffer lastActiveUri].
  rewrite lookup_insert_eq. cbn [due captured_uri captured_changeCount].
  rewrite bool_decide_eq_true_2 by done.
  rewrite delete_insert_eq, delete_id by done. done.
Qed.

(** C1 (as amended). After a burst of notifications for one resource,
    each with at least one change batch and each less than 2000 ms after
    the one before, the timer that runs 2000 ms or more after the last
    notification appends exactly one [text_change] event, whose
    [changeCount] is the number of change batches of the last
    notification alone; no timer of the resource remains. *)
Theorem debounce_keeps_last_count (uri : string) log
    (at_ : Z) (n : nat) burst (last_at : Z) (last_n : nat) (fired : Z) :
  textChangeTimers log !! uri = None →
  0 < n →
  debounced at_ burst →
  last ((at_, n) :: burst) = Some (last_at, last_n) →
  (last_at + TEXT_CHANGE_DEBOUNCE_MS ≤ fired)%Z →
  let log' := run (burst_trace uri ((at_, n) :: burst)
                   ++ [(fired, TimerFires uri)]) log in
  buffer log'
  = RingBuffer.push (TextChangeEvent fired uri (Z.of_nat last_n)) (buffer log)
  ∧ textChangeTimers log' = textChangeTimers log
  ∧ lastActiveUri log' = lastActiveUri log.
Proof.
  intros Hnone Hn Hb Hlast Hquiet log'. subst log'.
  assert (0 < last_n) as Hlast_n.
  { clear -Hn Hb Hlast. revert at_ n Hn Hb Hlast.
    induction burst as [|[t m] burst IH]; intros at_ n Hn Hb Hlast.
    - cbn in Hlast. by injection Hlast as <- <-.
    - destruct Hb as (_ & _ & Hm & Hb). rewrite last_cons_cons in Hlast.
      by eapply IH. }
  assert (run (burst_trace uri ((at_, n) :: burst) ++ [(fired, TimerFires uri)])
              log
          = record (TextChangeEvent fired uri (Z.of_nat last_n)) log) as ->;
    [|done].
  assert (run (burst_trace uri ((at_, n) :: burst)) log
          = handle last_at (DidChangeTextDocument uri last_n) log) as Hrun.
  { unfold burst_trace. rewrite fmap_cons. cbn [concat app].
    unfold run. cbn [foldl].
    rewrite (timer_waits at_ uri log) by (intros tm; by rewrite Hnone).
    pose proof (burst_collapses uri burst at_ n log Hn Hb) as Hc.
    unfold run, burst_trace in Hc. rewrite Hc.
    rewrite last_cons in Hlast.
    destruct (last burst) as [[t m]|]; by injection Hlast as -> ->. }
  unfold run in *. rewrite foldl_app, Hrun. cbn [foldl].
  by rewrite fire_after_change.
Qed.

Lemma debounce_keeps_last_count_witness :
  textChangeTimers (EventLog.new (Some 4) None None) !! "a.ts" = None
  ∧ buffer (run (burst_trace "a.ts" [(0%Z, 3); (1500%Z, 2)]
                 ++ [(3500%Z, TimerFires "a.ts")]) (EventLog.new (Some 4) None None))
    = RingBuffer.push (TextChangeEvent 3500 "a.ts" 2)
        (buffer (EventLog.new (Some 4) None None)).
Proof.
  split; [reflexivity|].
  apply (debounce_keeps_last_count "a.ts" (EventLog.new (Some 4) None None)
           0 3 [(1500%Z, 2)] 1500 2 3500).
  - reflexivity.
  - lia.
  - cbn. unfold TEXT_CHANGE_DEBOUNCE_MS. lia.
  - reflexivity.
  - unfold TEXT_CHANGE_DEBOUNCE_MS. lia.
Defined.

(** C1 (as stated) fails: two notifications of one change batch each,
    1000 ms apart, end in an event with [changeCount] 1, not 2. *)
Lemma debounce_total_counterexample :
  let burst := [(0%Z, 1); (1000%Z, 1)] in
  debounced 0 burst
  ∧ all (run (burst_trace "a.ts" burst ++ [(3000%Z, TimerFires "a.ts")])
             (EventLog.new (Some 4) None None))
    = [Some (TextChangeEvent 3000 "a.ts" 1)]
  ∧ total_changes burst = 2%Z
  ∧ all (run (burst_trace "a.ts" burst ++ [(3000%Z, TimerFires "a.ts")])
             (EventLog.new (Some 4) None None))
    ≠ [Some (TextChangeEvent 3000 "a.ts" (total_changes burst))].
Proof.
  split; [cbn; unfold TEXT_CHANGE_DEBOUNCE_MS; lia|].
  split; [vm_compute; reflexivity|].
  split; [reflexivity|].
  vm_compute. discriminate.
Qed.

End EventLogFacts.

(** ** The HTTP client *)

Section HttpClientFacts.
Import HttpClient.

Lemma append_assoc (a b c : string) : (a +:+ b) +:+ c = a +:+ (b +:+ c).
Proof.
  induction a as [|x a IH]; [done|].
  change (String x ((a +:+ b) +:+ c) = String x (a +:+ (b +:+ c))).
  by rewrite IH.
Qed.


(** A settled promise stays as it is. *)
Lemma settled_stays (events : list net_event) (x : exchange) :
  settled x ≠ Pending →
  settled (foldl on_event x events) = settled x.
Proof.
  revert x. induction events as [|ev events IH]; intros x Hx; [done|].
  cbn [foldl]. rewrite IH.
  - destruct ev; cbn; repeat case_match; cbn; try done;
      by destruct (settled x).
  - destruct ev; cbn; repeat case_match; cbn; try done;
      by destruct (settled x).
Qed.







Local Abbreviation status_text statusCode :=
  (match statusCode with Some n => pretty n | None => "undefined" end).






Example postJson_not_found :
  postJson (Sent [Response (Some 404%Z); Data "not "; Data "found"; EndOfResponse])
  = Rejected (StatusError "Status 404 body: not found").
Proof. vm_compute. reflexivity. Qed.

Example postJson_created :
  postJson (Sent [Response (Some 201%Z); Data "ok"; EndOfResponse]) = Resolved.
Proof. vm_compute. reflexivity. Qed.

End HttpClientFacts.

(** ** JSON round trips *)

Section JsonFacts.
Import JSON.

Lemma forallb_fmap_true {A B : Type} (f : B → bool) (g : A → B) (l : list A) :
  Forall (λ x, f (g x) = true) l → forallb f (g <$> l) = true.
Proof.
  induction 1 as [|x l Hx _ IH]; [done|].
  rewrite fmap_cons. cbn [forallb]. by rewrite Hx, IH.
Qed.

Lemma forallb_true_Forall {A : Type} (f : A → bool) (l : list A) :
  forallb f l = true ↔ Forall (λ x, f x = true) l.
Proof.
  induction l as [|x l IH]; cbn [forallb].
  - split; [constructor | done].
  - rewrite andb_true_iff, IH, Forall_cons. done.
Qed.

(** What [JSON.parse] returns holds no [undefined]. *)
Lemma parse_undefined_free (j : json) : undefined_free (parse j) = true.
Proof.
  induction j as [| | | |items IH|members IH] using json_ind';
    cbn [parse undefined_free]; try done.
  - by apply forallb_fmap_true.
  - apply forallb_fmap_true. eapply Forall_impl; [exact IH|]. done.
Qed.

Lemma roundtrip_Some (v w : value) :
  roundtrip v = Some w ↔ ∃ j, stringify v = Some j ∧ parse j = w.
Proof.
  unfold roundtrip. destruct (stringify v) as [j|]; cbn.
  - split; [intros [= <-]; by exists j | by intros (? & [= <-] & <-)].
  - split; [done | by intros (? & ? & _)].
Qed.

Lemma roundtrip_undefined_free (v w : value) :
  roundtrip v = Some w → undefined_free w = true.
Proof.
  intros (j & _ & <-)%roundtrip_Some. apply parse_undefined_free.
Qed.

(** Without [undefined] and with exact numbers the round trip is the
    identity. *)
Lemma roundtrip_exact (v : value) :
  undefined_free v = true → numbers_exact v = true → roundtrip v = Some v.
Proof.
  induction v as [| | | | |items IH|props IH] using value_ind';
    cbn [undefined_free numbers_exact]; intros Hu Hn; try done.
  - unfold roundtrip. cbn [stringify].
    apply andb_true_iff in Hn as [-> Hz]. apply negb_true_iff in Hz as ->.
    done.
  - apply forallb_true_Forall in Hu, Hn.
    unfold roundtrip. cbn [stringify fmap option_fmap option_map parse].
    do 2 f_equal. rewrite <- list_fmap_compose.
    rewrite <- (list_fmap_id items) at 2.
    apply Forall_fmap_ext_1.
    rewrite Forall_forall in IH, Hu, Hn |- *. intros item Hitem.
    specialize (IH item Hitem (Hu item Hitem) (Hn item Hitem)).
    apply roundtrip_Some in IH as (j & Hj & Hp). cbn. by rewrite Hj.
  - apply forallb_true_Forall in Hu, Hn.
    unfold roundtrip. cbn [stringify fmap option_fmap option_map parse].
    do 2 f_equal.
    induction props as [|[key v] props IHprops]; [done|].
    apply Forall_cons in IH as [IHv IH], Hu as [Huv Hu], Hn as [Hnv Hn].
    cbn [fst snd] in *.
    specialize (IHv Huv Hnv). apply roundtrip_Some in IHv as (j & Hj & <-).
    cbn [omap list_omap fst snd]. rewrite Hj.
    rewrite fmap_cons. cbn [fst snd]. f_equal. by apply IHprops.
Qed.

Lemma roundtrip_Array (items : list value) :
  roundtrip (Array items)
  = Some (Array ((λ item, parse (default JNull (stringify item))) <$> items)).
Proof.
  unfold roundtrip. cbn [stringify fmap option_fmap option_map parse].
  by rewrite <- list_fmap_compose.
Qed.

Lemma roundtrip_Object (props : list (string * value)) :
  roundtrip (Object props)
  = Some (Object ((λ m : string * json, (m.1, parse m.2)) <$>
            omap (λ p : string * value,
                    match stringify p.2 with
                    | Some j => Some (p.1, j)
                    | None => None
                    end) props)).
Proof. done. Qed.

Lemma stringify_None (v : value) : stringify v = None → v = Undefined.
Proof. by destruct v. Qed.

Lemma get_missing (key : string) (props : list (string * value)) :
  key ∉ props.*1 → get key props = Undefined.
Proof.
  induction props as [|[k v] props IH]; [done|].
  rewrite fmap_cons, not_elem_of_cons. cbn [fst get]. intros [Hne Hnot].
  rewrite bool_decide_eq_false_2 by done. by apply IH.
Qed.

Lemma agree_refl_scalar (v : value) :
  match v with Array _ | Object _ => False | _ => True end → agree v v.
Proof. destruct v; intros []; constructor. Qed.

(** The members kept by the round trip are among the properties. *)
Lemma kept_keys (props : list (string * value)) (key : string) :
  key ∈ ((λ m : string * json, (m.1, parse m.2)) <$>
          omap (λ p : string * value,
                  match stringify p.2 with
                  | Some j => Some (p.1, j)
                  | None => None
                  end) props).*1 →
  key ∈ props.*1.
Proof.
  induction props as [|[k v] props IH]; [done|].
  cbn [omap list_omap fst snd]. rewrite fmap_cons, elem_of_cons. cbn [fst].
  destruct (stringify v) as [j|].
  - rewrite !fmap_cons, elem_of_cons. cbn [fst]. intros [->|H]; auto.
  - auto.
Qed.

(** Plain data with exact numbers comes back agreeing with the original
    on every read. *)
Lemma roundtrip_agree (v : value) :
  shaped v = true → numbers_exact v = true → v ≠ Undefined →
  ∃ w, roundtrip v = Some w ∧ agree w v.
Proof.
  induction v as [| | | | |items IH|props IH] using value_ind';
    cbn [shaped numbers_exact]; intros Hs Hn Hne; try done.
  - exists Null. split; [done | constructor].
  - exists (Bool b). split; [done | constructor].
  - exists (Number x). split; [|constructor].
    unfold roundtrip. cbn [stringify].
    apply andb_true_iff in Hn as [-> Hz]. apply negb_true_iff in Hz as ->.
    done.
  - exists (Str s). split; [done | constructor].
  - apply forallb_true_Forall in Hs, Hn.
    rewrite roundtrip_Array. eexists. split; [reflexivity|].
    constructor.
    apply Forall2_fmap_l, Forall_Forall2_diag.
    rewrite Forall_forall in IH, Hs, Hn |- *. intros item Hitem.
    specialize (Hs item Hitem). apply andb_true_iff in Hs as [Hdef Hs].
    destruct (IH item Hitem Hs (Hn item Hitem)) as (w & Hw & Hagree).
    { intros ->. done. }
    apply roundtrip_Some in Hw as (j & Hj & <-).
    unfold compose. by rewrite Hj.
  - apply andb_true_iff in Hs as [Hkeys Hs].
    apply bool_decide_eq_true_1 in Hkeys.
    apply forallb_true_Forall in Hs, Hn.
    rewrite roundtrip_Object. eexists. split; [reflexivity|].
    constructor. intros key.
    induction props as [|[k v] props IHprops]; [constructor|].
    apply Forall_cons in IH as [IHv IH], Hs as [Hsv Hs], Hn as [Hnv Hn].
    rewrite fmap_cons in Hkeys. apply NoDup_cons in Hkeys as [Hfresh Hkeys].
    cbn [fst snd] in *. cbn [omap list_omap fst snd get].
    destruct (stringify v) as [j|] eqn:Hj.
    + rewrite fmap_cons. cbn [fst snd get]. case_bool_decide.
      * destruct (IHv Hsv Hnv) as (w & Hw & Hagree).
        { intros ->. done. }
        apply roundtrip_Some in Hw as (j' & Hj' & <-).
        rewrite Hj in Hj'. by injection Hj' as <-.
      * by apply IHprops.
    + apply stringify_None in Hj as ->. case_bool_decide as Hk.
      * subst key. rewrite get_missing; [constructor|].
        intros Hin. by apply Hfresh, kept_keys.
      * by apply IHprops.
Qed.

End JsonFacts.

(** ** The context bundle on the wire *)

Section ContextBundleFacts.
Import Types JSON ContextBundle.

Ltac keys_distinct :=
  repeat match goal with
  | |- context [bool_decide (NoDup ?l)] =>
      replace (bool_decide (NoDup l)) with true
        by (symmetry; vm_compute; reflexivity)
  end.

Lemma shaped_Object (props : list (string * value)) :
  shaped (Object props)
  = bool_decide (NoDup props.*1) && forallb (λ p, shaped p.2) props.
Proof. done. Qed.

Lemma undefined_free_Object (props : list (string * value)) :
  undefined_free (Object props) = forallb (λ p, undefined_free p.2) props.
Proof. done. Qed.

Lemma shaped_strings (l : list string) : shaped (strings l) = true.
Proof.
  unfold strings. cbn [shaped]. apply forallb_fmap_true, Forall_forall. done.
Qed.

Lemma undefined_free_strings (l : list string) :
  undefined_free (strings l) = true.
Proof.
  unfold strings. cbn [undefined_free].
  apply forallb_fmap_true, Forall_forall. done.
Qed.

Lemma shaped_objects {A : Type} (f : A → value) (l : list A) :
  (∀ x, is_undefined (f x) = false ∧ shaped (f x) = true) →
  shaped (Array (f <$> l)) = true.
Proof.
  intros Hf. cbn [shaped]. apply forallb_fmap_true, Forall_forall.
  intros x _. destruct (Hf x) as [-> ->]. done.
Qed.

Lemma undefined_free_objects {A : Type} (f : A → value) (g : A → bool)
    (l : list A) :
  (∀ x, undefined_free (f x) = g x) →
  undefined_free (Array (f <$> l)) = forallb g l.
Proof.
  intros Hf. cbn [undefined_free].
  induction l as [|x l IH]; [done|].
  rewrite fmap_cons. cbn [forallb]. by rewrite Hf, IH.
Qed.

Lemma of_event_shaped (e : ActivityEvent) :
  is_undefined (of_event e) = false ∧ shaped (of_event e) = true.
Proof.
  split; [done|].
  destruct e as [? [?|] [?|] [?|]| | | | | |? ? ? [?|]| |];
    unfold of_event; cbn [shaped fmap list_fmap fst snd forallb nullable];
    keys_distinct; rewrite ?shaped_strings; done.
Qed.

Lemma of_event_undefined_free (e : ActivityEvent) :
  undefined_free (of_event e) = event_defined e.
Proof.
  destruct e as [? [?|] [?|] [?|]| | | | | |? ? ? [?|]| |];
    unfold of_event;
    cbn [undefined_free forallb snd nullable event_defined];
    rewrite ?undefined_free_strings; done.
Qed.

Lemma of_editor_ok (ed : EditorState.t) :
  shaped (of_editor ed) = true ∧ undefined_free (of_editor ed) = true.
Proof.
  split; unfold of_editor;
    cbn [shaped undefined_free fmap list_fmap fst snd forallb];
    keys_distinct; done.
Qed.

Lemma of_tab_ok (tab : TabInfo.t) :
  (is_undefined (of_tab tab) = false ∧ shaped (of_tab tab) = true)
  ∧ undefined_free (of_tab tab) = true.
Proof.
  repeat split; unfold of_tab;
    cbn [shaped undefined_free fmap list_fmap fst snd forallb];
    keys_distinct; done.
Qed.

Lemma of_diagnostic_ok (d : DiagnosticInfo.t) :
  (is_undefined (of_diagnostic d) = false ∧ shaped (of_diagnostic d) = true)
  ∧ undefined_free (of_diagnostic d) = true.
Proof.
  repeat split; unfold of_diagnostic;
    cbn [shaped undefined_free fmap list_fmap fst snd forallb];
    keys_distinct; done.
Qed.

Lemma of_breakpoint_shaped (bp : BreakpointInfo.t) :
  is_undefined (of_breakpoint bp) = false ∧ shaped (of_breakpoint bp) = true.
Proof.
  split; [done|]. unfold of_breakpoint.
  cbn [shaped fmap list_fmap fst snd forallb]. keys_distinct.
  by destruct (BreakpointInfo.condition bp).
Qed.

Lemma of_breakpoint_undefined_free (bp : BreakpointInfo.t) :
  undefined_free (of_breakpoint bp)
  = bool_decide (is_Some (BreakpointInfo.condition bp)).
Proof.
  unfold of_breakpoint. cbn [undefined_free forallb snd].
  by destruct (BreakpointInfo.condition bp).
Qed.

Lemma of_git_ok (g : GitStatus.t) :
  shaped (of_git g) = true ∧ undefined_free (of_git g) = true.
Proof.
  split; unfold of_git;
    cbn [shaped undefined_free fmap list_fmap fst snd forallb];
    keys_distinct; rewrite ?shaped_strings, ?undefined_free_strings; done.
Qed.

Lemma of_phase_ok (a : PhaseAssessment) :
  shaped (of_phase a) = true ∧ undefined_free (of_phase a) = true.
Proof.
  split; unfold of_phase;
    cbn [shaped undefined_free fmap list_fmap fst snd forallb];
    keys_distinct; rewrite ?shaped_strings, ?undefined_free_strings; done.
Qed.

Lemma of_selection_ok (sel : Selection.t) :
  shaped (of_selection sel) = true ∧ undefined_free (of_selection sel) = true.
Proof.
  split; unfold of_selection;
    cbn [shaped undefined_free fmap list_fmap fst snd forallb];
    keys_distinct; done.
Qed.

Lemma of_state_shaped (st : PolledState.t) : shaped (of_state st) = true.
Proof.
  unfold of_state. rewrite shaped_Object.
  cbn [fmap list_fmap fst snd forallb]. keys_distinct.
  rewrite !shaped_strings.
  rewrite (shaped_objects of_tab) by apply of_tab_ok.
  rewrite (shaped_objects of_diagnostic) by apply of_diagnostic_ok.
  rewrite (shaped_objects of_breakpoint) by apply of_breakpoint_shaped.
  destruct (PolledState.activeEditor st) as [ed|],
           (PolledState.gitStatus st) as [g|];
    rewrite ?(proj1 (of_editor_ok _)), ?(proj1 (of_git_ok _)); done.
Qed.

Lemma of_state_undefined_free (st : PolledState.t) :
  undefined_free (of_state st)
  = forallb (λ bp, bool_decide (is_Some (BreakpointInfo.condition bp)))
            (PolledState.breakpoints st).
Proof.
  unfold of_state. rewrite undefined_free_Object. cbn [forallb snd].
  rewrite !undefined_free_strings.
  rewrite (undefined_free_objects of_tab (λ _, true))
    by apply of_tab_ok.
  rewrite (undefined_free_objects of_diagnostic (λ _, true))
    by apply of_diagnostic_ok.
  rewrite (undefined_free_objects of_breakpoint _ _ of_breakpoint_undefined_free).
  assert (∀ {A} (l : list A), forallb (λ _, true) l = true) as Htrue.
  { intros A l. by induction l. }
  rewrite !Htrue.
  destruct (PolledState.activeEditor st) as [ed|],
           (PolledState.gitStatus st) as [g|];
    rewrite ?(proj2 (of_editor_ok _)), ?(proj2 (of_git_ok _));
    cbn [undefined_free andb]; by rewrite ?andb_true_r.
Qed.

(** A bundle is plain data. *)
Lemma to_value_shaped (b : ContextBundle.t) : shaped (to_value b) = true.
Proof.
  unfold to_value. rewrite shaped_Object.
  cbn [fmap list_fmap fst snd forallb]. keys_distinct.
  rewrite (shaped_objects of_event) by apply of_event_shaped.
  rewrite of_state_shaped, (proj1 (of_phase_ok _)).
  destruct (selection b) as [sel|]; [|done].
  by rewrite (proj1 (of_selection_ok sel)).
Qed.

(** Its object holds an [undefined] exactly when one of its fields does. *)
Lemma to_value_undefined_free (b : ContextBundle.t) :
  undefined_free (to_value b) = fully_defined b.
Proof.
  unfold to_value, fully_defined. rewrite undefined_free_Object.
  cbn [forallb snd].
  rewrite (undefined_free_objects of_event _ _ of_event_undefined_free).
  rewrite of_state_undefined_free, (proj2 (of_phase_ok _)).
  destruct (selection b) as [sel|].
  - rewrite (proj2 (of_selection_ok sel)).
    rewrite (bool_decide_eq_true_2 (is_Some (Some sel))) by done.
    cbn [andb]. by rewrite !andb_true_r.
  - rewrite (bool_decide_eq_false_2 (is_Some (@None Selection.t)))
      by (by intros [? ?]).
    cbn [undefined_free andb]. by rewrite !andb_false_r.
Qed.

(** C7 (as amended). For a bundle whose numbers are finite and not -0,
    parsing its JSON text gives an object that agrees with the original on
    every field read, a missing property reading as [undefined].  It is
    structurally identical exactly when no field of the bundle has the
    value [undefined]; otherwise those properties (an unknown [exitCode],
    an absent breakpoint [condition], an absent [selection]) are missing
    from the result. *)
Theorem bundle_round_trip (b : ContextBundle.t) :
  numbers_exact (to_value b) = true →
  ∃ w,
    roundtrip (to_value b) = Some w
    ∧ agree w (to_value b)
    ∧ undefined_free w = true
    ∧ (fully_defined b = true → w = to_value b)
    ∧ (fully_defined b = false → w ≠ to_value b).
Proof.
  intros Hnum.
  destruct (roundtrip_agree (to_value b) (to_value_shaped b) Hnum)
    as (w & Hw & Hagree); [done|].
  exists w. split; [done|]. split; [done|].
  pose proof (roundtrip_undefined_free _ _ Hw) as Hfree.
  split; [done|]. split.
  - intros Hdef. rewrite <- to_value_undefined_free in Hdef.
    rewrite (roundtrip_exact _ Hdef Hnum) in Hw. by injection Hw.
  - intros Hdef Heq. rewrite Heq, to_value_undefined_free in Hfree.
    congruence.
Qed.

Lemma bundle_round_trip_witness :
  numbers_exact (to_value (sample (Some 0%Z))) = true
  ∧ ∃ w, roundtrip (to_value (sample (Some 0%Z))) = Some w
         ∧ agree w (to_value (sample (Some 0%Z)))
         ∧ undefined_free w = true
         ∧ (fully_defined (sample (Some 0%Z)) = true
            → w = to_value (sample (Some 0%Z)))
         ∧ (fully_defined (sample (Some 0%Z)) = false
            → w ≠ to_value (sample (Some 0%Z))).
Proof.
  split; [vm_compute; reflexivity|].
  apply (bundle_round_trip (sample (Some 0%Z))).
  vm_compute; reflexivity.
Defined.

(** C7 (as stated) fails: for a [terminal_command_end] event whose
    [exitCode] is [undefined], the original event object has the property
    [exitCode] and the parsed one has not, so the two bundles are not
    structurally identical. *)
Lemma bundle_round_trip_counterexample :
  ∃ w, roundtrip (to_value (sample None)) = Some w
       ∧ w ≠ to_value (sample None)
       ∧ ∃ original parsed,
           of_event (TerminalCommandEndEvent 1739361600000 "npm test" "bash" None)
           = Object original
           ∧ get "eventLog" match w with Object props => props | _ => [] end
             = Array [Object parsed]
           ∧ "exitCode" ∈ original.*1
           ∧ "exitCode" ∉ parsed.*1.
Proof.
  eexists. split; [vm_compute; reflexivity|]. split.
  - intros Heq. apply (f_equal undefined_free) in Heq.
    vm_compute in Heq. discriminate.
  - eexists _, _. split; [reflexivity|]. split; [vm_compute; reflexivity|].
    split.
    + change ("exitCode" ∈ ["kind"; "timestamp"; "commandLine"; "terminalName";
                            "exitCode"]).
      rewrite !elem_of_cons. do 4 right. by left.
    + change ("exitCode" ∉ ["kind"; "timestamp"; "commandLine"; "terminalName"]).
      rewrite !not_elem_of_cons. repeat split; try done. apply not_elem_of_nil.
Qed.

End ContextBundleFacts.

(* ===================================================================== *)
(** * Part III: further properties of the code                            *)
(* ===================================================================== *)

(** ** The ring buffer: every state, partial fills, [clear], storage *)

Section RingBufferMore.
Import RingBuffer.
Context {T : Type}.
Implicit Types (rb : RingBuffer.t T) (xs : list T) (ops : list (op T)).
Local Arguments index_mod : simpl never.

(** X1. After any interleaving of [push] and [clear], on a buffer of any
    capacity, [toArray()] is the last [min(n, capacity)] of the [n] items
    pushed since the last [clear], oldest first, and [size] is that
    number. *)
Theorem toArray_in_every_state (C : nat) ops :
  toArray (run C ops)
  = Some <$> drop (length (pushed ops) - C) (pushed ops)
  ∧ size (run C ops) = length (pushed ops) `min` C
  ∧ length (toArray (run C ops)) = size (run C ops).
Proof.
  split; [apply run_toArray|]. split; [apply run_count|].
  unfold size. rewrite run_toArray, run_count, length_fmap, length_drop. lia.
Qed.

(** X2. A push into a buffer that is not full evicts nothing: the item is
    appended and the size grows by one. *)
Theorem push_below_capacity_appends (C : nat) ops (x : T) :
  size (run C ops) < maxSize (run C ops) →
  toArray (push x (run C ops)) = toArray (run C ops) ++ [Some x]
  ∧ size (push x (run C ops)) = S (size (run C ops)).
Proof.
  unfold size, maxSize. rewrite run_count, run_capacity. intros Hroom.
  change (push x (run C ops)) with (apply_op (run C ops) (Push x)).
  rewrite <- run_snoc, !run_toArray, !run_count, pushed_snoc, length_app.
  cbn [length]. split; [|lia].
  replace (length (pushed ops) + 1 - C) with 0 by lia.
  replace (length (pushed ops) - C) with 0 by lia.
  by rewrite !drop_0, fmap_app.
Qed.

(** X3. [clear()] brings the buffer back to the state the constructor
    produced, so whatever follows behaves as on a new buffer. *)
Theorem clear_is_new (C : nat) ops ops' :
  clear (run C ops) = new C
  ∧ run C (ops ++ Clear :: ops') = run C ops'
  ∧ toArray (clear (run C ops)) = []
  ∧ maxSize (clear (run C ops)) = C.
Proof.
  assert (clear (run C ops) = new C) as Hclear.
  { unfold clear. by rewrite run_capacity. }
  split; [done|]. split; [|by rewrite Hclear].
  unfold run at 1. rewrite foldl_app. cbn [foldl apply_op].
  fold (run C ops). by rewrite Hclear.
Qed.

(** X4. The storage never grows after construction: it keeps exactly
    [capacity] slots, except that with capacity 0 the first push creates
    one slot, which is never read. *)
Theorem storage_is_bounded (C : nat) ops :
  (0 < C → length (buffer (run C ops)) = C)
  ∧ (C = 0 → length (buffer (run C ops)) ≤ 1 ∧ toArray (run C ops) = []).
Proof.
  split.
  - intros HC. by apply (holds_length C (pushed ops)), holds_run.
  - intros ->. split; [|by rewrite run_toArray, Nat.sub_0_r, drop_all].
    assert (head (run 0 ops) = Idx 0 ∧ buffer (run 0 ops) = []
            ∨ head (run 0 ops) = NaN ∧ length (buffer (run 0 ops)) ≤ 1)
      as [[_ ->]|[_ ?]]; [|cbn; lia|done].
    induction ops as [|o ops IH] using rev_ind; [by left|].
    rewrite run_snoc.
    destruct (run_capacity_0 ops) as [_ Hcap].
    destruct o as [x|]; cbn [apply_op push clear head buffer]; rewrite Hcap.
    + right. destruct IH as [[-> ->]|[-> Hlen]]; cbn; split; done.
    + by left.
Qed.

Section SinceMore.
Context (timestamp : T → Z).

(** X5. In every reachable state [since] succeeds, and a wider window
    returns everything a narrower one does, in the same order, and
    possibly more. *)
Theorem since_grows_with_window (C : nat) ops (w1 w2 now : Z) :
  (w1 ≤ w2)%Z →
  ∃ narrow wide,
    since timestamp w1 now (run C ops) = Some narrow
    ∧ since timestamp w2 now (run C ops) = Some wide
    ∧ narrow `sublist_of` wide
    ∧ length wide ≤ size (run C ops).
Proof.
  intros Hw. unfold since. rewrite run_toArray, !filter_since_items.
  eexists _, _. split; [done|]. split; [done|]. split.
  - rewrite <- (list_filter_filter_l _ (λ x, (now - w2 ≤ timestamp x)%Z))
      by (intros x; lia).
    apply sublist_filter.
  - unfold size. rewrite run_count.
    etrans; [apply length_filter|]. rewrite length_drop. lia.
Qed.

End SinceMore.

End RingBufferMore.

Lemma push_below_capacity_appends_witness :
  RingBuffer.size (RingBuffer.run 3 [RingBuffer.Push 7])
  < RingBuffer.maxSize (RingBuffer.run 3 [RingBuffer.Push 7])
  ∧ RingBuffer.toArray (RingBuffer.push 8 (RingBuffer.run 3 [RingBuffer.Push 7]))
    = [Some 7; Some 8].
Proof.
  split; [vm_compute; lia|].
  apply (push_below_capacity_appends 3 [RingBuffer.Push 7] 8). vm_compute; lia.
Defined.

Lemma since_grows_with_window_witness :
  (1000 ≤ 3000)%Z
  ∧ ∃ narrow wide,
      RingBuffer.since fst 1000 10000
        (RingBuffer.run 10 (RingBuffer.Push <$> [(5000, "old"); (8000, "recent");
                                                 (9500, "very-recent")]%Z))
      = Some narrow
      ∧ RingBuffer.since fst 3000 10000
          (RingBuffer.run 10 (RingBuffer.Push <$> [(5000, "old"); (8000, "recent");
                                                   (9500, "very-recent")]%Z))
        = Some wide
      ∧ narrow `sublist_of` wide
      ∧ length wide
        ≤ RingBuffer.size
            (RingBuffer.run 10 (RingBuffer.Push <$> [(5000, "old"); (8000, "recent");
                                                     (9500, "very-recent")]%Z)).
Proof.
  split; [lia|].
  apply (since_grows_with_window fst 10
           (RingBuffer.Push <$> [(5000, "old"); (8000, "recent");
                                 (9500, "very-recent")]%Z) 1000 3000 10000).
  lia.
Defined.

(** ** The classifier: evidence, confidence values, order of events *)

Section PhaseDetectionMore.
Import Types PhaseDetection.
Implicit Types (events : list ActivityEvent).

Lemma len_positive {A : Type} (l : list A) : (1 ≤ len l)%Z ↔ l ≠ [].
Proof. unfold len. destruct l; cbn [length]; split; intros; try done; lia. Qed.

(** X6. Each phase is returned only on its own evidence: exploring needs
    at most one edit and four switches or three files; iterating needs
    edits with a save or a test command, or two diagnostic changes;
    building needs at least two edits and at most two switches; debugging
    needs a debug start or a breakpoint change; archaeology needs a
    git-history command.  No phase but unknown is returned on fewer than
    three events. *)
Theorem phase_needs_evidence events :
  let edits := len (of_kind text_change events) in
  let switches := len (of_kind file_switch events) in
  let saves := len (of_kind file_save events) in
  (phase (detectPhase events) ≠ unknown → 3 ≤ length events)
  ∧ match phase (detectPhase events) with
    | exploring =>
        (edits ≤ 1)%Z ∧ (4 ≤ switches ∨ 3 ≤ len (uniqueFiles events))%Z
    | iterating =>
        (2 ≤ edits ∧ 1 ≤ saves)%Z
        ∨ (1 ≤ edits)%Z ∧ testCommands events ≠ []
        ∨ (2 ≤ len (of_kind diagnostic_change events))%Z
    | building => (2 ≤ edits ∧ switches ≤ 2)%Z
    | debugging =>
        of_kind debug_start events ≠ [] ∨ of_kind breakpoint_change events ≠ []
    | archaeology => gitHistoryCommands events ≠ []
    | unknown => True
    end.
Proof.
  intros edits switches saves. subst edits switches saves.
  destruct (decide (length events < 3)) as [Hshort|Hlong].
  { rewrite detectPhase_short by done. cbn [phase]. done. }
  split; [lia|].
  rewrite detectPhase_long by lia. cbn [phase].
  destruct (winner (scores events)) as [p b] eqn:Hw. cbn [fst].
  destruct (winner_scores _ _ _ Hw) as (Hp & _ & _ & [[-> _]|(Hpos & _ & _)]);
    [done|].
  rewrite <- Hp in Hpos. clear Hp Hw.
  destruct p; [| | | | |done]; revert Hpos; unfold scores;
    cbn [score s_exploring s_iterating s_building s_debugging s_archaeology];
    unfold when; rewrite <- ?len_positive;
    repeat match goal with
    | |- context [(?x <=? ?y)%Z] => destruct (Z.leb_spec x y)
    | |- context [(?x <? ?y)%Z] => destruct (Z.ltb_spec x y)
    | |- context [(?x =? ?y)%Z] => destruct (Z.eqb_spec x y)
    end; cbn [andb]; intros; unfold len in *; lia.
Qed.



(** X8. While a debug session is running (more sessions started than
    stopped in the window), the confidence is 1, and the phase is neither
    unknown nor archaeology. *)
Theorem running_debug_session_is_certain events :
  3 ≤ length events →
  (len (of_kind debug_stop events) < len (of_kind debug_start events))%Z →
  confidence (detectPhase events) = 1%float
  ∧ phase (detectPhase events) ≠ unknown
  ∧ phase (detectPhase events) ≠ archaeology.
Proof.
  intros Hlen Hrun. rewrite detectPhase_long by done. cbn [phase confidence].
  destruct (winner (scores events)) as [p b] eqn:Hw. cbn [fst snd].
  destruct (winner_scores _ _ _ Hw) as (Hp & Hb & Hmax & Hcase).
  assert (5 ≤ score (scores events) debugging)%Z as Hdebug.
  { unfold scores. cbn [score s_debugging]. unfold when, len in *.
    destruct (Z.ltb_spec (Z.of_nat (length (of_kind debug_stop events)))
                (Z.of_nat (length (of_kind debug_start events)))); [|lia].
    destruct (Z.leb_spec 1 (Z.of_nat (length (of_kind debug_start events))));
      [|lia].
    destruct (1 <=? _)%Z; lia. }
  assert (score (scores events) archaeology ≤ 5)%Z as Harch.
  { unfold scores. cbn [score s_archaeology]. unfold when.
    repeat match goal with |- context [if ?c then _ else _] => destruct c end;
      lia. }
  pose proof (Hmax debugging) as Hge.
  split.
  - assert (b = 5 ∨ b = 6 ∨ b = 7)%Z as [->|[->| ->]] by lia;
      vm_compute; reflexivity.
  - destruct Hcase as [[_ ->]|(Hpos & Hne & Hfirst)]; [lia|].
    split; [done|]. intros ->.
    assert (score (scores events) debugging = b) as E by lia.
    specialize (Hfirst debugging E). cbn in Hfirst. lia.
Qed.

Lemma running_debug_session_is_certain_witness :
  3 ≤ length [DebugStartEvent 0 "Launch" "node";
              FileSaveEvent 1 "a.ts" "ts"; FileSaveEvent 2 "a.ts" "ts"]
  ∧ (len (of_kind debug_stop
            [DebugStartEvent 0 "Launch" "node";
             FileSaveEvent 1 "a.ts" "ts"; FileSaveEvent 2 "a.ts" "ts"])
     < len (of_kind debug_start
              [DebugStartEvent 0 "Launch" "node";
               FileSaveEvent 1 "a.ts" "ts"; FileSaveEvent 2 "a.ts" "ts"]))%Z
  ∧ confidence (detectPhase
      [DebugStartEvent 0 "Launch" "node";
       FileSaveEvent 1 "a.ts" "ts"; FileSaveEvent 2 "a.ts" "ts"]) = 1%float.
Proof.
  split; [simpl; lia|]. split; [vm_compute; reflexivity|].
  apply (running_debug_session_is_certain
           [DebugStartEvent 0 "Launch" "node";
            FileSaveEvent 1 "a.ts" "ts"; FileSaveEvent 2 "a.ts" "ts"]).
  - simpl; lia.
  - vm_compute; reflexivity.
Defined.

(** *** The order of the events *)

Lemma List_filter_Permutation {A : Type} (f : A → bool) (l l' : list A) :
  l ≡ₚ l' → List.filter f l ≡ₚ List.filter f l'.
Proof.
  induction 1 as [|x l l' _ IH|x y l|l l' l'' _ IH1 _ IH2]; cbn [List.filter].
  - done.
  - destruct (f x); by rewrite IH.
  - destruct (f x), (f y); try done. apply perm_swap.
  - by etrans.
Qed.

Lemma concat_fmap_Permutation {A B : Type} (f : A → list B) (l l' : list A) :
  l ≡ₚ l' → concat (f <$> l) ≡ₚ concat (f <$> l').
Proof.
  induction 1 as [|x l l' _ IH|x y l|l l' l'' _ IH1 _ IH2]; cbn.
  - done.
  - by rewrite IH.
  - rewrite !app_assoc. f_equiv. apply app_Permutation_comm.
  - by etrans.
Qed.

Lemma distinct_Permutation (l l' : list string) :
  l ≡ₚ l' → distinct l ≡ₚ distinct l'.
Proof.
  intros Hperm. apply NoDup_Permutation; [apply distinct_NoDup..|].
  intros x. rewrite !distinct_elem_of. by rewrite Hperm.
Qed.

Lemma scores_Permutation events events' :
  events ≡ₚ events' → scores events = scores events'.
Proof.
  intros Hperm.
  assert (∀ k, len (of_kind k events) = len (of_kind k events')) as Hkind.
  { intros k. unfold len, of_kind. f_equal.
    by apply Permutation_length, List_filter_Permutation. }
  assert (len (uniqueFiles events) = len (uniqueFiles events')) as Hfiles.
  { unfold len. f_equal. rewrite !uniqueFiles_distinct.
    apply Permutation_length, distinct_Permutation.
    by rewrite (concat_fmap_Permutation switch_ids _ _ Hperm),
               (concat_fmap_Permutation change_ids _ _ Hperm). }
  assert (len (testCommands events) = len (testCommands events')
          ∧ len (gitHistoryCommands events) = len (gitHistoryCommands events'))
    as [Htests Hgits].
  { unfold len, testCommands, gitHistoryCommands, of_kind.
    split; f_equal; by apply Permutation_length; do 2 apply List_filter_Permutation. }
  unfold scores. by rewrite !Hkind, Hfiles, Htests, Hgits.
Qed.

(** X9. The phase, the confidence and the reasoning depend on which
    events are in the window, not on their order: any rearrangement of
    the events is classified alike. *)
Theorem classification_ignores_order events events' :
  events ≡ₚ events' →
  phase (detectPhase events) = phase (detectPhase events')
  ∧ confidence (detectPhase events) = confidence (detectPhase events')
  ∧ reasoning (detectPhase events) = reasoning (detectPhase events').
Proof.
  intros Hperm.
  pose proof (Permutation_length Hperm) as Hlen.
  destruct (decide (length events < 3)) as [Hshort|Hlong].
  { rewrite !detectPhase_short by lia. done. }
  rewrite !detectPhase_long by lia. cbn [phase confidence reasoning].
  rewrite <- (scores_Permutation _ _ Hperm).
  split; [done|]. split; [done|].
  destruct (winner (scores events)) as [p b]. cbn [fst].
  unfold generateReasoning. rewrite Hlen.
  assert (length (uniqueFiles events) = length (uniqueFiles events')) as ->.
  { rewrite !uniqueFiles_distinct.
    apply Permutation_length, distinct_Permutation.
    by rewrite (concat_fmap_Permutation switch_ids _ _ Hperm),
               (concat_fmap_Permutation change_ids _ _ Hperm). }
  assert (∀ k, length (of_kind k events) = length (of_kind k events')) as Hkind.
  { intros k. by apply Permutation_length, List_filter_Permutation. }
  by rewrite !Hkind.
Qed.

Lemma classification_ignores_order_witness :
  [TextChangeEvent 0 "a.ts" 5; FileSaveEvent 1 "a.ts" "ts";
   TextChangeEvent 2 "a.ts" 3]
  ≡ₚ [FileSaveEvent 1 "a.ts" "ts"; TextChangeEvent 2 "a.ts" 3;
      TextChangeEvent 0 "a.ts" 5]
  ∧ phase (detectPhase [TextChangeEvent 0 "a.ts" 5; FileSaveEvent 1 "a.ts" "ts";
                        TextChangeEvent 2 "a.ts" 3])
    = phase (detectPhase [FileSaveEvent 1 "a.ts" "ts"; TextChangeEvent 2 "a.ts" 3;
                          TextChangeEvent 0 "a.ts" 5]).
Proof.
  assert ([TextChangeEvent 0 "a.ts" 5; FileSaveEvent 1 "a.ts" "ts";
           TextChangeEvent 2 "a.ts" 3]
          ≡ₚ [FileSaveEvent 1 "a.ts" "ts"; TextChangeEvent 2 "a.ts" 3;
              TextChangeEvent 0 "a.ts" 5]) as Hperm.
  { apply (Permutation_cons_append [_; _]). }
  split; [exact Hperm|].
  apply (classification_ignores_order _ _ Hperm).
Defined.

End PhaseDetectionMore.

(** ** The HTTP client: when the promise settles *)

Section HttpClientMore.
Import HttpClient.

(** X10. Until the response ends or an error is reported the promise
    stays pending: headers and body chunks alone never settle it, and an
    [end] without a response does nothing. *)
Theorem postJson_waits_for_the_end (events : list net_event) :
  Forall carries_no_verdict events →
  postJson (Sent events) = Pending
  ∧ postJson (Sent (EndOfResponse :: events)) = Pending.
Proof.
  intros Hall.
  assert (∀ x, settled x = Pending →
               settled (foldl on_event x events) = Pending) as Hkeep.
  { induction Hall as [|ev events Hev _ IH]; intros x Hx; [done|].
    cbn [foldl]. apply IH.
    destruct ev; cbn in Hev; try done; cbn [on_event settled].
    by destruct (response x) as [[??]|]. }
  split; cbn [postJson foldl on_event response]; by apply Hkeep.
Qed.

Lemma postJson_waits_for_the_end_witness :
  Forall carries_no_verdict [Response (Some 200%Z); Data "o"; Data "k"]
  ∧ postJson (Sent [Response (Some 200%Z); Data "o"; Data "k"]) = Pending.
Proof.
  split; [repeat constructor|].
  apply (postJson_waits_for_the_end [Response (Some 200%Z); Data "o"; Data "k"]).
  repeat constructor.
Defined.

(** X11. The promise settles once: whatever it has settled to after some
    events, no later event (a second response, a late error) changes
    it. *)
Theorem postJson_settles_once (events later : list net_event) :
  postJson (Sent events) ≠ Pending →
  postJson (Sent (events ++ later)) = postJson (Sent events).
Proof.
  cbn [postJson]. intros Hsettled. rewrite foldl_app. by apply settled_stays.
Qed.

Lemma postJson_settles_once_witness :
  postJson (Sent [Response (Some 204%Z); EndOfResponse]) ≠ Pending
  ∧ postJson (Sent ([Response (Some 204%Z); EndOfResponse]
                    ++ [RequestError "ECONNRESET"]))
    = postJson (Sent [Response (Some 204%Z); EndOfResponse]).
Proof.
  split; [vm_compute; discriminate|].
  apply (postJson_settles_once [Response (Some 204%Z); EndOfResponse]
           [RequestError "ECONNRESET"]).
  vm_compute; discriminate.
Defined.

End HttpClientMore.

(** ** The event log: what the listeners record *)

Section EventLogMore.
Import Types EventLog.
Implicit Types (log : EventLog.t) (trace : list (Z * signal)).
Implicit Types (events : list ActivityEvent).

Lemma log_run_app trace trace' log :
  run (trace ++ trace') log = run trace' (run trace log).
Proof. unfold run. by rewrite foldl_app. Qed.

Lemma active_after_app (prev : option string) events events' :
  active_after prev (events ++ events')
  = active_after (active_after prev events) events'.
Proof. unfold active_after. by rewrite foldl_app. Qed.

Lemma chained_app (prev : option string) events events' :
  chained prev (events ++ events')
  ↔ chained prev events ∧ chained (active_after prev events) events'.
Proof.
  revert prev. induction events as [|e events IH]; intros prev.
  - cbn. tauto.
  - destruct e; cbn; rewrite IH; tauto.
Qed.

Lemma reported_mono trace trace' (e : ActivityEvent) :
  reported trace e → reported (trace ++ trace') e.
Proof.
  destruct e; cbn; try done.
  intros (before & at_ & n & between & after & -> & Hrest).
  exists before, at_, n, between, (after ++ trace').
  split; [|done]. rewrite <- !app_assoc. cbn [app]. do 2 f_equal.
  by rewrite <- app_assoc.
Qed.

(** A pending timer stays as it was set over a call that does not set
    it anew. *)
Lemma scheduled_step trace (now : Z) (sig : signal) (uri : string)
    (tm : timer) :
  ¬ renews uri sig →
  scheduled trace uri tm → scheduled (trace ++ [(now, sig)]) uri tm.
Proof.
  intros Hsig (Huri & before & at_ & n & between & -> & Hn & Hcount & Hquiet).
  split; [done|]. exists before, at_, n, (between ++ [(now, sig)]).
  split; [by rewrite <- app_assoc|]. split; [done|]. split; [done|].
  apply Forall_app. split; [done|]. by constructor.
Qed.

(** A listener call that pushes [e], stamped with the time of the call. *)
Lemma recorded_push (C : nat) (active : option string) trace events log
    (now : Z) (sig : signal) (e : ActivityEvent) log' :
  recorded C active trace events log →
  buffer log' = RingBuffer.push e (buffer log) →
  timestamp e = now →
  chained (active_after active events) [e] →
  lastActiveUri log' = active_after active (events ++ [e]) →
  reported (trace ++ [(now, sig)]) e →
  (∀ uri tm, textChangeTimers log' !! uri = Some tm →
             scheduled (trace ++ [(now, sig)]) uri tm) →
  recorded C active (trace ++ [(now, sig)]) (events ++ [e]) log'.
Proof.
  intros [Hb Hc Ha Hr Ht Hs] Hbuf Hstamp Hchain Hactive Hrep Htimers.
  split; try done.
  - rewrite Hbuf, Hb. unfold RingBuffer.pushes.
    rewrite fmap_app. change (RingBuffer.Push <$> [e]) with [RingBuffer.Push e].
    by rewrite run_snoc.
  - apply chained_app. done.
  - apply Forall_app. split; [|by constructor].
    eapply Forall_impl; [done|]. intros e'. apply reported_mono.
  - rewrite !fmap_app. apply sublist_app; [done|]. cbn. by rewrite Hstamp.
Qed.

(** A listener call that pushes nothing. *)
Lemma recorded_keep (C : nat) (active : option string) trace events log
    (now : Z) (sig : signal) log' :
  recorded C active trace events log →
  buffer log' = buffer log →
  lastActiveUri log' = lastActiveUri log →
  (∀ uri tm, textChangeTimers log' !! uri = Some tm →
             scheduled (trace ++ [(now, sig)]) uri tm) →
  recorded C active (trace ++ [(now, sig)]) events log'.
Proof.
  intros [Hb Hc Ha Hr Ht Hs] Hbuf Hactive Htimers.
  split; try done.
  - by rewrite Hbuf.
  - by rewrite Hactive.
  - eapply Forall_impl; [done|]. intros e'. apply reported_mono.
  - rewrite fmap_app. by apply sublist_inserts_r.
Qed.

Lemma recorded_handle (C : nat) (active : option string) trace events log
    (now : Z) (sig : signal) :
  recorded C active trace events log →
  ∃ events', recorded C active (trace ++ [(now, sig)]) events'
               (handle now sig log).
Proof.
  intros Hrec.
  assert (∀ uri tm, ¬ renews uri sig →
                    textChangeTimers log !! uri = Some tm →
                    scheduled (trace ++ [(now, sig)]) uri tm) as Ht'.
  { intros uri tm Hsig Htm.
    by apply scheduled_step, (recorded_timers _ _ _ _ _ Hrec). }
  pose proof (recorded_active _ _ _ _ _ Hrec) as Ha.
  assert ((∀ uri, ¬ renews uri sig) →
          ∀ e, kind e ≠ file_switch → timestamp e = now →
               reported (trace ++ [(now, sig)]) e →
               recorded C active (trace ++ [(now, sig)]) (events ++ [e])
                 (record e log)) as Hpush.
  { intros Hsig e Hkind Hstamp Hrep.
    apply (recorded_push C active trace events log now sig e); try done.
    - by destruct e.
    - cbn [record lastActiveUri]. rewrite active_after_app, Ha.
      by destruct e.
    - intros uri tm. by apply Ht'. }
  destruct sig as [toUri toLang|uri lang|name type|name type|uris allDiags
                  |cmd term|cmd term exitCode|uri n|added removed changed|uri];
    cbn [handle]; try (eexists; apply Hpush; [by intros ? []|done..]).
  - case_bool_decide as Hsame.
    + exists events. apply (recorded_keep _ _ _ _ log); try done.
      intros uri tm. by apply Ht'; intros [].
    + eexists. eapply (recorded_push _ _ _ _ log); try done.
      * cbn [lastActiveUri]. by rewrite active_after_app.
      * intros uri tm. by apply Ht'; intros [].
  - case_bool_decide as Hn.
    + exists events. apply (recorded_keep _ _ _ _ log); try done.
      intros uri' tm. apply Ht'. cbn. lia.
    + exists events. apply (recorded_keep _ _ _ _ log); try done.
      cbn [textChangeTimers]. intros uri' tm.
      destruct (decide (uri = uri')) as [<-|Hne].
      * rewrite lookup_insert_eq. intros [= <-]. split; [done|].
        exists trace, now, n, []. cbn.
        split; [done|]. split; [lia|]. split; [done | constructor].
      * rewrite lookup_insert_ne by done. apply Ht'. cbn. tauto.
  - destruct (textChangeTimers log !! uri) as [tm|] eqn:Htm.
    2:{ exists events. apply (recorded_keep _ _ _ _ log); try done.
        intros uri' tm'. by apply Ht'; intros []. }
    case_bool_decide as Hdue.
    2:{ exists events. apply (recorded_keep _ _ _ _ log); try done.
        intros uri' tm'. by apply Ht'; intros []. }
    destruct (recorded_timers _ _ _ _ _ Hrec uri tm Htm)
      as (Huri & before & at_ & n & between & Htrace & Hn & Hcount & Hquiet).
    eexists. eapply (recorded_push _ _ _ _ log); try done.
    + cbn [lastActiveUri]. rewrite active_after_app, Ha. done.
    + cbn. exists before, at_, n, between, []. rewrite Huri.
      split; [by rewrite Htrace, <- app_assoc|]. done.
    + cbn [textChangeTimers]. intros uri' tm'.
      rewrite lookup_delete_Some. intros [_ Htm']. by apply Ht'; [intros []|].
Qed.

Lemma recorded_run (bufferSize eventBufferSize : option nat)
    (active : option string) trace :
  ∃ C events,
    recorded C active trace events
      (run trace (EventLog.new bufferSize eventBufferSize active)).
Proof.
  induction trace as [|[now sig] trace (C & events & IH)] using rev_ind.
  - eexists _, []. by split.
  - rewrite log_run_app. cbn [run foldl].
    destruct (recorded_handle C active trace events _ now sig IH)
      as [events' Hrec].
    by exists C, events'.
Qed.

(** What [all()] returns in a state that satisfies the invariant. *)
Lemma recorded_all (C : nat) (active : option string) trace events log :
  recorded C active trace events log →
  all log = Some <$> drop (length events - C) events
  ∧ RingBuffer.maxSize (buffer log) = C.
Proof.
  intros Hrec. unfold all, RingBuffer.maxSize.
  rewrite (recorded_buffer _ _ _ _ _ Hrec). unfold RingBuffer.pushes.
  by rewrite run_toArray, run_capacity, pushed_pushes.
Qed.

(** X12. The [file_switch] events that [all()] returns link up: each one
    leaves the resource the previous one entered and enters a different
    one, and the last one entered the resource the log holds as active.
    As long as no event has been evicted the first one leaves the
    resource that was active when the log was created. *)
Theorem file_switches_chain (bufferSize eventBufferSize : option nat)
    (active : option string) trace :
  let log := run trace (EventLog.new bufferSize eventBufferSize active) in
  ∃ prev events,
    all log = Some <$> events
    ∧ chained prev events
    ∧ lastActiveUri log = active_after prev events
    ∧ (length events < RingBuffer.maxSize (buffer log) → prev = active).
Proof.
  intros log. subst log.
  destruct (recorded_run bufferSize eventBufferSize active trace)
    as (C & events & Hrec).
  destruct (recorded_all _ _ _ _ _ Hrec) as [Hall ->].
  pose proof (recorded_chain _ _ _ _ _ Hrec) as Hchain.
  set (k := length events - C) in *.
  rewrite <- (take_drop k events) in Hchain.
  apply chained_app in Hchain as [_ Hchain].
  exists (active_after active (take k events)), (drop k events).
  split; [done|]. split; [done|]. split.
  - by rewrite (recorded_active _ _ _ _ _ Hrec), <- active_after_app, take_drop.
  - rewrite length_drop. intros Hroom.
    replace k with 0 by lia. done.
Qed.

(** X13. [all()] returns no hole, and every [text_change] event in it
    was pushed by a run of the timer callback of its resource: it is
    stamped with the time of that run, and its [changeCount] is the
    positive number of change batches of the latest notification for that
    resource that carried changes before the run.  Notifications earlier
    in the burst, and notifications for other resources, do not count. *)
Theorem text_changes_are_reported (bufferSize eventBufferSize : option nat)
    (active : option string) trace :
  ∃ events,
    all (run trace (EventLog.new bufferSize eventBufferSize active))
    = Some <$> events
    ∧ Forall (reported trace) events.
Proof.
  destruct (recorded_run bufferSize eventBufferSize active trace)
    as (C & events & Hrec).
  destruct (recorded_all _ _ _ _ _ Hrec) as [Hall _].
  exists (drop (length events - C) events). split; [done|].
  apply Forall_drop, (recorded_reports _ _ _ _ _ Hrec).
Qed.

Lemma StronglySorted_sublist {A : Type} (R : relation A) (l k : list A) :
  l `sublist_of` k → StronglySorted R k → StronglySorted R l.
Proof.
  induction 1 as [|x l k Hsub IH|x l k Hsub IH]; intros Hk.
  - constructor.
  - apply StronglySorted_inv in Hk as [Hk Hx]. constructor; [by apply IH|].
    apply Forall_forall. intros y Hy.
    rewrite Forall_forall in Hx. apply Hx. by eapply elem_of_sublist.
  - apply StronglySorted_inv in Hk as [Hk _]. by apply IH.
Qed.

Lemma nondecreasing_sublist events (times : list Z) :
  (timestamp <$> events) `sublist_of` times → Sorted Z.le times →
  RingBuffer.nondecreasing timestamp events.
Proof.
  intros Hsub Hs.
  apply Sorted_StronglySorted in Hs; [|intros a b c; lia].
  apply (StronglySorted_sublist _ _ _ Hsub), StronglySorted_Sorted in Hs.
  unfold RingBuffer.nondecreasing. clear Hsub.
  induction events as [|e events IH]; [constructor|].
  rewrite fmap_cons in Hs. apply Sorted_inv in Hs as [Hs Hhd].
  constructor; [by apply IH|].
  destruct events; [constructor|]. rewrite fmap_cons in Hhd.
  apply HdRel_inv in Hhd. by constructor.
Qed.

(** X14. When the clock does not go back between listener calls,
    [snapshot(w)] returns the recent end of [all()]: [all()] is the events
    older than the window followed by the events that [snapshot]
    returns, in the same order. *)
Theorem snapshot_is_recent_end (bufferSize eventBufferSize : option nat)
    (active : option string) trace (windowMs now : Z) :
  Sorted Z.le (fst <$> trace) →
  let log := run trace (EventLog.new bufferSize eventBufferSize active) in
  ∃ older recent,
    all log = Some <$> (older ++ recent)
    ∧ snapshot windowMs now log = Some recent
    ∧ Forall (λ e, (timestamp e < now - windowMs)%Z) older
    ∧ Forall (λ e, (now - windowMs ≤ timestamp e)%Z) recent.
Proof.
  intros Hclock log. subst log.
  destruct (recorded_run bufferSize eventBufferSize active trace)
    as (C & events & Hrec).
  destruct (recorded_all _ _ _ _ _ Hrec) as [Hall _].
  set (items := drop (length events - C) events) in *.
  assert (RingBuffer.nondecreasing timestamp items) as Hsorted.
  { apply (nondecreasing_sublist _ (fst <$> trace)); [|done].
    etrans; [|apply (recorded_times _ _ _ _ _ Hrec)].
    apply fmap_sublist, sublist_drop. }
  destruct (filter_sorted_suffix timestamp (now - windowMs) items Hsorted)
    as (older & E & Hold).
  exists older, (filter (λ e, (now - windowMs ≤ timestamp e)%Z) items).
  split; [by rewrite <- E|]. split; [|split; [done|]].
  - unfold snapshot, RingBuffer.since. fold (all (run trace
      (EventLog.new bufferSize eventBufferSize active))).
    rewrite Hall. apply filter_since_items.
  - apply Forall_forall. intros e He.
    by apply list_elem_of_filter in He as [? _].
Qed.

(** X15. [dispose()] cancels the pending text changes: no timer callback
    that runs afterwards records anything, and the events already logged
    stay. *)
Theorem dispose_cancels_pending_changes log trace :
  Forall (λ call, is_timer call.2) trace →
  run trace (dispose log) = dispose log
  ∧ all (run trace (dispose log)) = all log.
Proof.
  intros Htimers.
  assert (run trace (dispose log) = dispose log) as ->; [|done].
  induction Htimers as [|[now sig] trace Hsig _ IH]; [done|].
  destruct sig as [| | | | | | | | |uri]; [done..|].
  change (run ((now, TimerFires uri) :: trace) (dispose log))
    with (run trace (handle now (TimerFires uri) (dispose log))).
  rewrite timer_waits; [done|].
  intros tm. cbn. by rewrite lookup_empty.
Qed.

(** X16. Debouncing is per resource: listener calls and timer callbacks
    that do not concern a resource leave its pending timer, with the
    count and the due time it has captured, as it is. *)
Theorem other_resources_keep_timer (bufferSize eventBufferSize : option nat)
    (active : option string) trace trace' (uri : string) :
  Forall (λ call, ¬ concerns uri call.2) trace' →
  textChangeTimers
    (run (trace ++ trace') (EventLog.new bufferSize eventBufferSize active))
    !! uri
  = textChangeTimers
      (run trace (EventLog.new bufferSize eventBufferSize active)) !! uri.
Proof.
  induction trace' as [|[now sig] trace' IH] using rev_ind; intros Hothers.
  - by rewrite app_nil_r.
  - apply Forall_app in Hothers as [Hothers Hsig].
    apply List.Forall_inv in Hsig. cbn in Hsig.
    rewrite <- IH by done. rewrite app_assoc, log_run_app. cbn [run foldl].
    destruct (recorded_run bufferSize eventBufferSize active (trace ++ trace'))
      as (C & events & Hrec).
    set (log := run (trace ++ trace') _) in *.
    destruct sig as [toUri toLang|uri' lang|name type|name type|uris allDiags
                    |cmd term|cmd term exitCode|uri' n|added removed changed
                    |uri']; cbn [handle record textChangeTimers]; try done.
    + by case_bool_decide.
    + case_bool_decide; [done|]. cbn [textChangeTimers].
      by rewrite lookup_insert_ne.
    + destruct (textChangeTimers log !! uri') as [tm|] eqn:Htm; [|done].
      case_bool_decide; [|done]. cbn [textChangeTimers].
      destruct (recorded_timers _ _ _ _ _ Hrec uri' tm Htm) as [-> _].
      by rewrite lookup_delete_ne.
Qed.

End EventLogMore.

Lemma snapshot_is_recent_end_witness :
  Sorted Z.le (fst <$> [(1000%Z, EventLog.DidSaveTextDocument "a.ts" "ts");
                        (50000%Z, EventLog.DidSaveTextDocument "b.ts" "ts")])
  ∧ ∃ older recent,
      EventLog.all
        (EventLog.run [(1000%Z, EventLog.DidSaveTextDocument "a.ts" "ts");
                       (50000%Z, EventLog.DidSaveTextDocument "b.ts" "ts")]
           (EventLog.new (Some 4) None None))
      = Some <$> (older ++ recent)
      ∧ EventLog.snapshot 10000 55000
          (EventLog.run [(1000%Z, EventLog.DidSaveTextDocument "a.ts" "ts");
                         (50000%Z, EventLog.DidSaveTextDocument "b.ts" "ts")]
             (EventLog.new (Some 4) None None))
        = Some recent
      ∧ Forall (λ e, (Types.timestamp e < 55000 - 10000)%Z) older
      ∧ Forall (λ e, (55000 - 10000 ≤ Types.timestamp e)%Z) recent.
Proof.
  assert (Sorted Z.le
            (fst <$> [(1000%Z, EventLog.DidSaveTextDocument "a.ts" "ts");
                      (50000%Z, EventLog.DidSaveTextDocument "b.ts" "ts")]))
    as Hclock.
  { cbn. apply Sorted_cons; [apply Sorted_cons; [apply Sorted_nil|apply HdRel_nil]|].
    apply HdRel_cons. lia. }
  split; [exact Hclock|].
  apply (snapshot_is_recent_end (Some 4) None None
           [(1000%Z, EventLog.DidSaveTextDocument "a.ts" "ts");
            (50000%Z, EventLog.DidSaveTextDocument "b.ts" "ts")]
           10000 55000 Hclock).
Defined.

Lemma dispose_cancels_pending_changes_witness :
  Forall (λ call, EventLog.is_timer call.2) [(2000%Z, EventLog.TimerFires "a.ts")]
  ∧ EventLog.all
      (EventLog.run [(2000%Z, EventLog.TimerFires "a.ts")]
         (EventLog.dispose
            (EventLog.run [(0%Z, EventLog.DidChangeTextDocument "a.ts" 3)]
               (EventLog.new (Some 4) None None))))
    = [].
Proof.
  split; [by repeat constructor|].
  apply (dispose_cancels_pending_changes
           (EventLog.run [(0%Z, EventLog.DidChangeTextDocument "a.ts" 3)]
              (EventLog.new (Some 4) None None))
           [(2000%Z, EventLog.TimerFires "a.ts")]).
  by repeat constructor.
Defined.

Lemma other_resources_keep_timer_witness :
  Forall (λ call, ¬ EventLog.concerns "a.ts" call.2)
    [(100%Z, EventLog.DidChangeTextDocument "b.ts" 1);
     (2100%Z, EventLog.TimerFires "b.ts");
     (2100%Z, EventLog.DidSaveTextDocument "c.ts" "ts")]
  ∧ EventLog.textChangeTimers
      (EventLog.run ([(0%Z, EventLog.DidChangeTextDocument "a.ts" 3)]
                     ++ [(100%Z, EventLog.DidChangeTextDocument "b.ts" 1);
                         (2100%Z, EventLog.TimerFires "b.ts");
                         (2100%Z, EventLog.DidSaveTextDocument "c.ts" "ts")])
         (EventLog.new (Some 4) None None)) !! "a.ts"
    = EventLog.textChangeTimers
        (EventLog.run [(0%Z, EventLog.DidChangeTextDocument "a.ts" 3)]
           (EventLog.new (Some 4) None None)) !! "a.ts".
Proof.
  assert (Forall (λ call, ¬ EventLog.concerns "a.ts" call.2)
            [(100%Z, EventLog.DidChangeTextDocument "b.ts" 1);
             (2100%Z, EventLog.TimerFires "b.ts");
             (2100%Z, EventLog.DidSaveTextDocument "c.ts" "ts")]) as Hothers.
  { repeat apply Forall_cons_2; try apply Forall_nil_2; cbn; by intros ?. }
  split; [exact Hothers|].
  apply (other_resources_keep_timer (Some 4) None None
           [(0%Z, EventLog.DidChangeTextDocument "a.ts" 3)] _ "a.ts" Hothers).
Defined.

(** ** Polling: the diagnostics limit, the git status *)

Section PollStateMore.
Import EventLog PollState.
Implicit Types (diags : list Diagnostic) (result : list DiagnosticInfo.t).
Implicit Types (allDiags : list (string * list Diagnostic)).

Local Abbreviation kept uri diags :=
  (info_of uri <$>
     List.filter
       (λ d, (severity_value (severity d) <=? severity_value Warning)%Z) diags).

Local Abbreviation limit maxDiagnostics := (Z.to_nat (Z.max 1 maxDiagnostics)).

Lemma scan_spec (maxDiagnostics : Z) (uri : string) diags :
  ∀ result,
    length result < limit maxDiagnostics →
    scan maxDiagnostics uri diags result
    = if decide (length result + length (kept uri diags)
                 < limit maxDiagnostics)
      then inl (result ++ kept uri diags)
      else inr (result
                ++ take (limit maxDiagnostics - length result) (kept uri diags)).
Proof.
  induction diags as [|d diags IH]; intros result Hroom.
  - cbn. rewrite decide_True by lia. by rewrite app_nil_r.
  - cbn [scan List.filter].
    replace (severity_value Warning <? severity_value (severity d))%Z
      with (negb (severity_value (severity d) <=? severity_value Warning)%Z)
      by (rewrite Z.leb_antisym; by destruct (_ <? _)%Z).
    destruct (severity_value (severity d) <=? severity_value Warning)%Z;
      cbn [negb]; [|by apply IH].
    rewrite fmap_cons. cbn [length]. rewrite length_app. cbn [length].
    destruct (Z.leb_spec maxDiagnostics (Z.of_nat (length result + 1)))
      as [Hfull|Hmore].
    + rewrite decide_False by lia.
      replace (limit maxDiagnostics - length result) with 1 by lia.
      cbn [take]. by rewrite take_0.
    + rewrite IH by (rewrite length_app; cbn [length]; lia).
      rewrite length_app. cbn [length].
      replace (limit maxDiagnostics - length result)
        with (S (limit maxDiagnostics - (length result + 1))) by lia.
      cbn [take]. rewrite <- !app_assoc. cbn [app].
      destruct (decide (length result + 1 + _ < _)) as [Hlt|Hge].
      * by rewrite decide_True by lia.
      * by rewrite decide_False by lia.
Qed.

Lemma scan_all_spec (maxDiagnostics : Z) allDiags :
  ∀ result,
    length result < limit maxDiagnostics →
    scan_all maxDiagnostics allDiags result
    = result ++ take (limit maxDiagnostics - length result)
                  (reportable allDiags).
Proof.
  induction allDiags as [|[uri diags] allDiags IH]; intros result Hroom.
  - cbn. by rewrite take_nil, app_nil_r.
  - cbn [scan_all]. rewrite scan_spec by done.
    unfold reportable. rewrite fmap_cons. cbn [concat].
    fold (reportable allDiags).
    case_decide as Hlt.
    + rewrite IH by (rewrite length_app; lia).
      rewrite <- app_assoc. f_equal.
      rewrite take_app_ge by lia. do 2 f_equal.
      rewrite length_app. lia.
    + f_equal. by rewrite take_app_le by lia.
Qed.

Lemma reportable_severity allDiags :
  Forall (λ d, DiagnosticInfo.severity d = DiagnosticInfo.error
               ∨ DiagnosticInfo.severity d = DiagnosticInfo.warning)
    (reportable allDiags).
Proof.
  unfold reportable. apply Forall_concat, Forall_fmap, Forall_forall.
  intros [uri diags] _. cbn. apply Forall_fmap, Forall_forall.
  intros d _. cbn. destruct (_ =? _)%Z; tauto.
Qed.

(** X17. [pollDiagnostics] returns the first [max(1, maxDiagnostics)]
    errors and warnings, in the order of the enumeration: diagnostics of
    severity information and hint are never returned, and since the limit
    is checked only after a push, one diagnostic is returned even when the
    limit is 0 or negative. *)
Theorem pollDiagnostics_takes_first (maxDiagnostics : Z) allDiags :
  pollDiagnostics maxDiagnostics allDiags
  = take (Z.to_nat (Z.max 1 maxDiagnostics)) (reportable allDiags)
  ∧ length (pollDiagnostics maxDiagnostics allDiags)
    = Z.to_nat (Z.max 1 maxDiagnostics) `min` length (reportable allDiags)
  ∧ Forall (λ d, DiagnosticInfo.severity d = DiagnosticInfo.error
                 ∨ DiagnosticInfo.severity d = DiagnosticInfo.warning)
      (pollDiagnostics maxDiagnostics allDiags).
Proof.
  assert (pollDiagnostics maxDiagnostics allDiags
          = take (limit maxDiagnostics) (reportable allDiags)) as ->.
  { unfold pollDiagnostics. rewrite scan_all_spec by (cbn [length]; lia).
    cbn [length app]. by rewrite Nat.sub_0_r. }
  split; [done|]. split; [apply length_take|].
  apply Forall_take, reportable_severity.
Qed.

(** X18. Whenever [pollGitStatus] returns a status, every untracked file
    is also among the modified files, in the same order: both lists are
    read off the changes of the working tree. *)
Theorem untracked_are_among_modified (gitExtension : option GitExtension)
    (g : GitStatus.t) :
  pollGitStatus gitExtension = Some g →
  GitStatus.untracked g `sublist_of` GitStatus.modified g
  ∧ length (GitStatus.untracked g) ≤ length (GitStatus.modified g).
Proof.
  intros Hpoll.
  assert (GitStatus.untracked g `sublist_of` GitStatus.modified g) as Hsub.
  { unfold pollGitStatus in Hpoll.
    destruct gitExtension as [ext|]; [|done].
    destruct (negb (isActive ext) && negb (activate ext))%bool; [done|].
    destruct (getAPI ext) as [[|repo repos]|]; try done.
    injection Hpoll as <-. cbn.
    apply fmap_sublist.
    induction (workingTreeChanges repo) as [|c cs IH]; cbn; [done|].
    destruct (status c =? 7)%Z; by constructor. }
  split; [done | by apply sublist_length].
Qed.

End PollStateMore.

Lemma untracked_are_among_modified_witness :
  PollState.pollGitStatus
    (Some {| PollState.isActive := true; PollState.activate := true;
             PollState.getAPI :=
               Some [ {| PollState.HEAD := None;
                         PollState.indexChanges := [];
                         PollState.workingTreeChanges :=
                           [ {| PollState.fsPath := "a.ts"; PollState.status := 5%Z |};
                             {| PollState.fsPath := "b.ts"; PollState.status := 7%Z |} ] |} ] |})
  = Some {| GitStatus.branch := "detached"; GitStatus.ahead := 0%Z;
            GitStatus.behind := 0%Z; GitStatus.staged := [];
            GitStatus.modified := ["a.ts"; "b.ts"];
            GitStatus.untracked := ["b.ts"] |}
  ∧ ["b.ts"] `sublist_of` ["a.ts"; "b.ts"].
Proof.
  split; [reflexivity|].
  apply (untracked_are_among_modified
           (Some {| PollState.isActive := true; PollState.activate := true;
                    PollState.getAPI :=
                      Some [ {| PollState.HEAD := None;
                                PollState.indexChanges := [];
                                PollState.workingTreeChanges :=
                                  [ {| PollState.fsPath := "a.ts";
                                       PollState.status := 5%Z |};
                                    {| PollState.fsPath := "b.ts";
                                       PollState.status := 7%Z |} ] |} ] |})
           {| GitStatus.branch := "detached"; GitStatus.ahead := 0%Z;
              GitStatus.behind := 0%Z; GitStatus.staged := [];
              GitStatus.modified := ["a.ts"; "b.ts"];
              GitStatus.untracked := ["b.ts"] |}).
  reflexivity.
Defined.

(** ** The formatted text *)

Section ContextAssemblyMore.
Import Types ContextAssembly.
Context (Number_toString : float → string).

Lemma diagnostics_block_length (diagnostics : list DiagnosticInfo.t) :
  length (diagnostics_block diagnostics) ≤ 17.
Proof.
  unfold diagnostics_block. destruct (_ || _)%bool; cbn [length]; [|lia].
  rewrite !length_app, !length_fmap, !length_take. cbn [length]. lia.
Qed.

Lemma tabs_block_length (openTabs : list TabInfo.t) :
  length (tabs_block openTabs) ≤ 17.
Proof.
  unfold tabs_block. destruct (_ <? _); cbn [length]; [|lia].
  rewrite !length_app, !length_fmap, !length_take. cbn [length]. lia.
Qed.

Lemma git_block_length (gitStatus : option GitStatus.t) :
  length (git_block gitStatus) ≤ 4.
Proof.
  destruct gitStatus as [g|]; cbn [git_block length]; [|lia].
  rewrite !length_app. do 2 destruct (_ <? _); cbn [length]; lia.
Qed.

Lemma breakpoints_block_length (breakpoints : list BreakpointInfo.t) :
  length (breakpoints_block breakpoints) ≤ 12.
Proof.
  unfold breakpoints_block. destruct (_ <? _); cbn [length]; [|lia].
  rewrite !length_app, !length_fmap, !length_take. cbn [length]. lia.
Qed.

Lemma event_narrative_cases (eventLog : list ActivityEvent) (now : Z) :
  ∃ heading,
    event_narrative Number_toString eventLog now
    = heading ++ (event_line Number_toString now <$> eventLog)
    ∧ length heading ≤ 2.
Proof.
  unfold event_narrative. destruct eventLog as [|e eventLog].
  - exists []. split; [done | cbn; lia].
  - eexists [_; _]. split; [done | cbn; lia].
Qed.

(** The parts before the event lines. *)
Lemma parts_shape (bundle : ContextBundle.t) (now : Z) :
  ∃ before,
    parts Number_toString bundle now
    = before ++ (event_line Number_toString now <$> ContextBundle.eventLog bundle)
    ∧ 4 ≤ length before ≤ 61.
Proof.
  unfold parts.
  destruct (event_narrative_cases (ContextBundle.eventLog bundle) now)
    as (heading & -> & Hheading).
  set (state := ContextBundle.state bundle).
  pose proof (diagnostics_block_length (PolledState.diagnostics state)).
  pose proof (tabs_block_length (PolledState.openTabs state)).
  pose proof (git_block_length (PolledState.gitStatus state)).
  pose proof (breakpoints_block_length (PolledState.breakpoints state)).
  assert (length (current_editor (PolledState.activeEditor state)) ≤ 1)
    by (destruct (PolledState.activeEditor state); cbn; lia).
  assert (length (selection_block (ContextBundle.selection bundle)) ≤ 4)
    by (destruct (ContextBundle.selection bundle); cbn; lia).
  rewrite !app_assoc. eexists. split; [done|].
  rewrite !length_app. cbn [phase_header length]. lia.
Qed.

(** X19. The formatted text is bounded: it has at least the 4 parts of
    the header and at most 61 parts besides one per event, however many
    diagnostics, tabs and breakpoints the bundle holds; the events are
    never cut and their lines come last, in the order of the bundle. *)
Theorem formatted_parts_are_bounded (bundle : ContextBundle.t) (now : Z) :
  let n := length (ContextBundle.eventLog bundle) in
  4 + n ≤ length (parts Number_toString bundle now)
  ∧ length (parts Number_toString bundle now) ≤ 61 + n
  ∧ drop (length (parts Number_toString bundle now) - n)
         (parts Number_toString bundle now)
    = event_line Number_toString now <$> ContextBundle.eventLog bundle.
Proof.
  intros n. subst n.
  destruct (parts_shape bundle now) as (before & -> & Hbefore).
  rewrite length_app, length_fmap.
  split; [lia|]. split; [lia|].
  rewrite Nat.add_sub. by rewrite drop_app_length.
Qed.

(** X21. On a log that has run any listener calls, [snapshot] does not
    throw, so [assembleContext] fails only when [pollState()] rejects,
    and then with the reason of that rejection.  When [pollState()]
    resolves, the bundle holds the polled state and lists, in order, the
    logged events stamped within the window; its phase is the
    classification of exactly those events, and its formatted text has at
    most 61 parts besides one per slot of the event buffer. *)
Theorem assembled_bundle_is_bounded (bufferSize eventBufferSize : option nat)
    (active : option string) (trace : list (Z * EventLog.signal))
    (eventWindowSeconds : option Z) (now : Z) (polled : poll)
    (editor : option TextEditor) (isoString : string) (now' : Z) :
  let log := EventLog.run trace
               (EventLog.new bufferSize eventBufferSize active) in
  assembleContext eventWindowSeconds now polled editor isoString log
  ≠ SnapshotThrows
  ∧ match polled with
    | PollRejects reason =>
        assembleContext eventWindowSeconds now polled editor isoString log
        = PollStateRejects reason
    | PollResolves state =>
        ∃ bundle logged,
          assembleContext eventWindowSeconds now polled editor isoString log
          = Assembled bundle
          ∧ EventLog.all log = Some <$> logged
          ∧ ContextBundle.state bundle = state
          ∧ ContextBundle.eventLog bundle
            = filter (λ e, (now - default 60 eventWindowSeconds * 1000
                            ≤ timestamp e)%Z) logged
          ∧ ContextBundle.phase bundle
            = PhaseDetection.detectPhase (ContextBundle.eventLog bundle)
          ∧ length (parts Number_toString bundle now')
            ≤ 61 + RingBuffer.maxSize (EventLog.buffer log)
    end.
Proof.
  intros log. subst log.
  destruct (recorded_run bufferSize eventBufferSize active trace)
    as (C & events & Hrec).
  destruct (recorded_all _ _ _ _ _ Hrec) as [Hall ->].
  set (logged := drop (length events - C) events) in *.
  unfold assembleContext, EventLog.snapshot, RingBuffer.since.
  fold (EventLog.all (EventLog.run trace
          (EventLog.new bufferSize eventBufferSize active))).
  rewrite Hall, filter_since_items.
  split; [by destruct polled|].
  destruct polled as [state|reason]; [|done].
  eexists _, logged. split; [done|]. split; [done|].
  cbn [ContextBundle.eventLog ContextBundle.phase ContextBundle.state].
  split; [done|]. split; [done|]. split; [done|].
  match goal with |- length (parts _ ?b _) ≤ _ =>
    destruct (parts_shape b now') as (before & -> & Hbefore) end.
  rewrite length_app, length_fmap. cbn [ContextBundle.eventLog].
  pose proof (length_filter
                (λ e, (now - default 60%Z eventWindowSeconds * 1000
                       ≤ timestamp e)%Z) logged) as Hfilter.
  assert (length logged ≤ C) by (subst logged; rewrite length_drop; lia).
  lia.
Qed.

Lemma filter_has_severity (sev sev' : DiagnosticInfo.severity_t)
    (l : list DiagnosticInfo.t) :
  List.filter (has_severity sev) (List.filter (has_severity sev') l)
  = if bool_decide (ContextBundle.severity_tag sev
                    = ContextBundle.severity_tag sev')
    then List.filter (has_severity sev) l
    else [].
Proof.
  induction l as [|d l IH]; [by case_bool_decide|].
  cbn [List.filter].
  destruct (has_severity sev' d) eqn:Hd'; cbn [List.filter]; rewrite IH;
    unfold has_severity in *; destruct sev, sev', (DiagnosticInfo.severity d);
    by vm_compute in *.
Qed.

Lemma prefix_append (p rest : string) : String.prefix p (p +:+ rest) = true.
Proof.
  induction p as [|c p IH]; [by destruct rest|].
  change (String.prefix (String c p) (String c (p +:+ rest)) = true).
  cbn [String.prefix]. by destruct (ascii_dec c c).
Qed.

(** The line of a diagnostic begins with its label. *)
Lemma diagnostic_line_prefix (label : string) (d : DiagnosticInfo.t) :
  String.prefix ("  - " +:+ label +:+ " ") (diagnostic_line label d) = true.
Proof.
  unfold diagnostic_line.
  rewrite <- (append_assoc label " "), <- (append_assoc "  - " (label +:+ " ")).
  apply prefix_append.
Qed.

(** No text begins as the line of a warning and as the line of an
    error. *)
Lemma labels_differ (line : string) :
  String.prefix "  - WARN " line = true →
  String.prefix "  - ERROR " line = true → False.
Proof.
  intros Hwarn Herror.
  do 5 (destruct line as [|c line]; [done|];
        cbn [String.prefix] in Hwarn, Herror;
        destruct (ascii_dec _ c) as [<-|]; [|done];
        try destruct (ascii_dec _ _); try done).
Qed.

(** X20. In the diagnostics block the lines of the errors come first, in
    the order of the bundle and at most 10 of them, and the lines of the
    warnings follow, in that order and at most 5 of them, whatever the
    order of errors and warnings among the diagnostics; no line of a
    warning precedes a line of an error.  The block depends only on the
    errors and on the warnings: diagnostics of severity info or hint
    leave no trace, and without errors and warnings there is no block. *)
Theorem diagnostics_block_groups (diagnostics : list DiagnosticInfo.t) :
  let errors := List.filter (has_severity DiagnosticInfo.error) diagnostics in
  let warnings :=
    List.filter (has_severity DiagnosticInfo.warning) diagnostics in
  diagnostics_block diagnostics = diagnostics_block (errors ++ warnings)
  ∧ (errors = [] → warnings = [] → diagnostics_block diagnostics = [])
  ∧ (errors ++ warnings ≠ [] →
     ∃ summary error_lines warning_lines,
       diagnostics_block diagnostics
       = "" :: summary :: error_lines ++ warning_lines
       ∧ error_lines = diagnostic_line "ERROR" <$> take 10 errors
       ∧ warning_lines = diagnostic_line "WARN" <$> take 5 warnings
       ∧ Forall (λ line, String.prefix "  - ERROR " line = true) error_lines
       ∧ Forall (λ line, String.prefix "  - WARN " line = true) warning_lines
       ∧ (∀ i j line line',
            diagnostics_block diagnostics !! i = Some line →
            diagnostics_block diagnostics !! j = Some line' →
            String.prefix "  - WARN " line = true →
            String.prefix "  - ERROR " line' = true →
            j < i)).
Proof.
  intros errors warnings.
  split; [|split].
  - subst errors warnings. unfold diagnostics_block.
    rewrite !List.filter_app, !filter_has_severity.
    cbn [ContextBundle.severity_tag].
    rewrite !bool_decide_eq_true_2 by done.
    rewrite !bool_decide_eq_false_2 by done.
    by rewrite app_nil_r.
  - intros He Hw. unfold diagnostics_block. fold errors warnings.
    by rewrite He, Hw.
  - intros Hsome. unfold diagnostics_block. fold errors warnings.
    assert ((0 <? length errors) || (0 <? length warnings) = true)%bool as ->.
    { destruct errors, warnings; done. }
    cbn [app].
    eexists _, _, _. split; [reflexivity|]. split; [done|]. split; [done|].
    assert (Forall (λ line, String.prefix "  - ERROR " line = true)
              (diagnostic_line "ERROR" <$> take 10 errors)) as Herr.
    { apply Forall_fmap, Forall_forall. intros d _.
      exact (diagnostic_line_prefix "ERROR" d). }
    assert (Forall (λ line, String.prefix "  - WARN " line = true)
              (diagnostic_line "WARN" <$> take 5 warnings)) as Hwarn.
    { apply Forall_fmap, Forall_forall. intros d _.
      exact (diagnostic_line_prefix "WARN" d). }
    split; [done|]. split; [done|].
    intros i j line line' Hi Hj Hline Hline'.
    destruct i as [|[|i]]; [by injection Hi as <-..|].
    destruct j as [|[|j]]; [by injection Hj as <-..|].
    cbn [lookup list_lookup] in Hi, Hj.
    apply lookup_app_Some in Hi as [Hi|[Hlen Hi]].
    { destruct (labels_differ line Hline).
      by eapply (Forall_lookup_1 _ _ _ _ Herr). }
    apply lookup_app_Some in Hj as [Hj|[_ Hj]].
    { apply lookup_lt_Some in Hj. lia. }
    destruct (labels_differ line'); [|done].
    by eapply (Forall_lookup_1 _ _ _ _ Hwarn).
Qed.

End ContextAssemblyMore.
